(** * Pynputter: a shallow embedding of [pynputter.py]

    The macro interpreter of the repository
    ([venv/Lib/site-packages/pynputter/pynputter.py]) is embedded class by
    class.  Python values become the inductive [pyval], exceptions become
    the error monad [result], the calls into [pyautogui] and [time.sleep]
    become a trace of [event]s, and a Python [dict] becomes an insertion
    ordered association list.

    Modelling conventions.
    - A Python [str] is a [string] of ASCII characters: [isdigit], [lower]
      and [strip] are the ASCII restrictions of the Python methods.
    - An [int] is an unbounded [Z]; the bound some interpreters put on
      the number of digits [int] converts is outside the model.  A [float]
      is the exact rational value of its decimal literal ([Q], reduced);
      binary64 rounding is outside the model.
    - What [pyautogui] does with the arguments it is called with is
      outside the model: a call is recorded as an [event].
    - File input ([DataFromFile], [ProcedureFromFile]) is not embedded. *)

From Stdlib Require Import ZArith QArith List String Ascii Bool Arith Lia.
Import ListNotations.

Close Scope Q_scope.
Local Open Scope string_scope.
Local Open Scope list_scope.

(** ** Exceptions and the error monad *)

Inductive exn : Type :=
| IndexError
| KeyError
| TypeError
| ValueError.

Inductive result (A : Type) : Type :=
| Ok (a : A)
| Raise (e : exn).

Arguments Ok {A} a.
Arguments Raise {A} e.

Definition bind {A B : Type} (c : result A) (k : A -> result B) : result B :=
  match c with
  | Ok a => k a
  | Raise e => Raise e
  end.

Notation "x <- c ;; k" := (bind c (fun x => k))
  (at level 61, c at next level, right associativity).

Definition of_option {A : Type} (e : exn) (o : option A) : result A :=
  match o with
  | Some a => Ok a
  | None => Raise e
  end.

(** [mapM f l]: run [f] over [l] from left to right, stopping at the first
    exception, as a Python [for] loop that appends each result does. *)
Fixpoint mapM {A B : Type} (f : A -> result B) (l : list A) : result (list B) :=
  match l with
  | [] => Ok []
  | a :: l' => b <- f a ;; bs <- mapM f l' ;; Ok (b :: bs)
  end.

(** ** Python values *)

Inductive pyval : Type :=
| PStr (s : string)
| PInt (z : Z)
| PFloat (q : Q)
| PList (l : list string)
| PNone.

(** ** String methods *)

Module Str.

Definition isdigit (c : ascii) : bool :=
  let n := nat_of_ascii c in (48 <=? n)%nat && (n <=? 57)%nat.

(** ASCII whitespace as [str.strip] sees it: TAB, LF, VT, FF, CR, the
    separators 0x1c..0x1f and the space. *)
Definition isspace (c : ascii) : bool :=
  let n := nat_of_ascii c in
  ((9 <=? n)%nat && (n <=? 13)%nat) || ((28 <=? n)%nat && (n <=? 32)%nat).

Definition lower_char (c : ascii) : ascii :=
  let n := nat_of_ascii c in
  if (65 <=? n)%nat && (n <=? 90)%nat then ascii_of_nat (n + 32) else c.

Fixpoint lower (s : string) : string :=
  match s with
  | EmptyString => EmptyString
  | String c s' => String (lower_char c) (lower s')
  end.

Fixpoint lstrip (s : string) : string :=
  match s with
  | EmptyString => EmptyString
  | String c s' => if isspace c then lstrip s' else s
  end.

Fixpoint rstrip (s : string) : string :=
  match s with
  | EmptyString => EmptyString
  | String c s' =>
      let r := rstrip s' in
      if isspace c && (r =? "") then "" else String c r
  end.

Definition strip (s : string) : string := rstrip (lstrip s).

(** [s[n:]] and [s[:n]] for [n >= 0]. *)
Fixpoint drop (n : nat) (s : string) : string :=
  match n, s with
  | O, _ => s
  | S _, EmptyString => EmptyString
  | S n', String _ s' => drop n' s'
  end.

Fixpoint take (n : nat) (s : string) : string :=
  match n, s with
  | O, _ => EmptyString
  | S _, EmptyString => EmptyString
  | S n', String c s' => String c (take n' s')
  end.

(** [s[0]] and [s[-1]] raise [IndexError] on the empty string. *)
Definition first (s : string) : result ascii :=
  match s with
  | EmptyString => Raise IndexError
  | String c _ => Ok c
  end.

Fixpoint last (s : string) : result ascii :=
  match s with
  | EmptyString => Raise IndexError
  | String c EmptyString => Ok c
  | String _ s' => last s'
  end.

(** [s[:-1]]. *)
Fixpoint drop_last (s : string) : string :=
  match s with
  | EmptyString => EmptyString
  | String _ EmptyString => EmptyString
  | String c s' => String c (drop_last s')
  end.

(** [c in s] for a one-character [c]. *)
Fixpoint mem (c : ascii) (s : string) : bool :=
  match s with
  | EmptyString => false
  | String d s' => (c =? d)%char || mem c s'
  end.

(** [sub in s]. *)
Fixpoint contains (sub s : string) : bool :=
  prefix sub s ||
  match s with
  | EmptyString => false
  | String _ s' => contains sub s'
  end.

(** [s.replace(c, '')] for a one-character [c]. *)
Fixpoint remove (c : ascii) (s : string) : string :=
  match s with
  | EmptyString => EmptyString
  | String d s' => if (c =? d)%char then remove c s' else String d (remove c s')
  end.

Fixpoint rev_append (acc s : string) : string :=
  match acc with
  | EmptyString => s
  | String c acc' => rev_append acc' (String c s)
  end.

(** [s.split(sep)] for a non-empty [sep]: occurrences are found from the
    left and do not overlap.  [skip] counts the characters of a separator
    still to be passed over, [cur] is the piece being read, reversed. *)
Fixpoint split_from (sep : string) (skip : nat) (cur s : string) : list string :=
  match s with
  | EmptyString => [rev_append cur ""]
  | String c s' =>
      match skip with
      | S k => split_from sep k cur s'
      | O =>
          if prefix sep s
          then rev_append cur "" :: split_from sep (length sep - 1) "" s'
          else split_from sep 0 (String c cur) s'
      end
  end.

Definition split (sep s : string) : list string := split_from sep 0 "" s.

End Str.

(** ** The builtins [int] and [float] *)

Definition digit_value (c : ascii) : Z := Z.of_nat (nat_of_ascii c - 48).

(** Digits with single underscores between them, as [int] reads them. *)
Fixpoint int_body (acc : Z) (after_digit : bool) (s : string) : option Z :=
  match s with
  | EmptyString => if after_digit then Some acc else None
  | String c s' =>
      if Str.isdigit c then int_body (acc * 10 + digit_value c)%Z true s'
      else if (c =? "_")%char && after_digit then int_body acc false s'
      else None
  end.

(** [int(s)] for a string: surrounding whitespace, an optional sign, decimal
    digits; anything else is a [ValueError]. *)
Definition int_of_str (s : string) : result Z :=
  of_option ValueError
    match Str.strip s with
    | String "+" r => int_body 0 false r
    | String "-" r => option_map Z.opp (int_body 0 false r)
    | t => int_body 0 false t
    end.

(** Mantissa and number of fractional digits of [digits [. digits]]. *)
Fixpoint float_body (m : Z) (k : nat) (dot any : bool) (s : string)
  : option (Z * nat) :=
  match s with
  | EmptyString => if any then Some (m, k) else None
  | String c s' =>
      if Str.isdigit c
      then float_body (m * 10 + digit_value c)%Z (if dot then S k else k) dot true s'
      else if (c =? ".")%char && negb dot then float_body m k true any s'
      else None
  end.

Fixpoint pow10 (k : nat) : positive :=
  match k with
  | O => 1%positive
  | S k' => (10 * pow10 k')%positive
  end.

Definition decimal (mk : Z * nat) : Q :=
  Qred (Qmake (fst mk) (pow10 (snd mk))).

(** [float(s)] on the strings [clean_number] builds: digits with at most
    one point and at least one digit.  (Signs, exponents, [inf] and [nan],
    which [float] also reads, never reach it from [clean_number].) *)
Definition float_of_str (s : string) : result Q :=
  of_option ValueError (option_map decimal (float_body 0 0 false false s)).

(** ** Lists, instructions and dictionaries *)

(** [l[i]] for [i >= 0]. *)
Definition item {A : Type} (l : list A) (i : nat) : result A :=
  of_option IndexError (nth_error l i).

(** A monadic left fold: a [for] loop that updates [self]. *)
Fixpoint foldM {A S : Type} (f : S -> A -> result S) (l : list A) (s : S)
  : result S :=
  match l with
  | [] => Ok s
  | a :: l' => s' <- f s a ;; foldM f l' s'
  end.

(** A parsed line is a Python list: the keyword, the action and, when it
    was given, the attribute.  A comment or blank line is [None]. *)
Definition instruction : Type := list pyval.

(** A [dict] with string keys, in insertion order: assigning to a key that
    is present replaces its value in place, a new key goes to the end. *)
Module Dict.

Definition t (V : Type) : Type := list (string * V).

Fixpoint get {V : Type} (d : t V) (k : string) : option V :=
  match d with
  | [] => None
  | (k', v) :: d' => if k' =? k then Some v else get d' k
  end.

Fixpoint set {V : Type} (d : t V) (k : string) (v : V) : t V :=
  match d with
  | [] => [(k, v)]
  | (k', v') :: d' => if k' =? k then (k, v) :: d' else (k', v') :: set d' k v
  end.

Definition keys {V : Type} (d : t V) : list string := map fst d.

Definition values {V : Type} (d : t V) : list V := map snd d.

(** What every dictionary built by [set] from the empty one satisfies. *)
Definition wf {V : Type} (d : t V) : Prop := NoDup (keys d).

End Dict.

Definition record : Type := Dict.t string.

Definition data_set : Type := Dict.t record.

Definition dquote : ascii := ascii_of_nat 34.

Definition newline : string := String (ascii_of_nat 10) "".

(** ** [BaseInterpreter] *)

Inductive number_type : Type :=
| IntType
| FloatType.

(** The state of the loop of [clean_number]: the characters kept so far,
    in order, and the current [number_type]. *)
Record scan : Type := Scan {
  number_list : list ascii;
  kind : number_type
}.

Module BaseInterpreter.

Definition _purge (line _purge_characters : string) : string :=
  fold_left (fun line _purge_character => Str.remove _purge_character line)
            (list_ascii_of_string _purge_characters) line.

Definition _remove_parenthesis (line : string) : result string :=
  let cleaned_line := Str.strip line in
  cleaned_line <-
    (if Str.mem "(" cleaned_line
     then c <- Str.first cleaned_line ;;
          Ok (if (c =? "(")%char then Str.drop 1 cleaned_line else cleaned_line)
     else Ok cleaned_line) ;;
  if Str.mem ")" cleaned_line
  then c <- Str.last cleaned_line ;;
       Ok (if (c =? ")")%char then Str.drop_last cleaned_line else cleaned_line)
  else Ok cleaned_line.

Definition _remove_quotes (text : string) : result string :=
  let cleaned_text := Str.strip text in
  first_character <- Str.first cleaned_text ;;
  if (first_character =? dquote)%char || (first_character =? "'")%char
  then Ok (_purge text (String first_character ""))
  else Ok cleaned_text.

(** One turn of [for character in str(number)]. *)
Definition scan_character (st : scan) (character : ascii) : scan :=
  match kind st with
  | IntType =>
      if (character =? ".")%char
      then Scan (number_list st ++ [character]) FloatType
      else if Str.isdigit character
           then Scan (number_list st ++ [character]) IntType
           else st
  | FloatType =>
      if Str.isdigit character
      then Scan (number_list st ++ [character]) FloatType
      else st
  end.

Definition scan_number (number : string) : scan :=
  fold_left scan_character (list_ascii_of_string number) (Scan [] IntType).

(** [None] of Python is [PNone]; the [ValueError] of [int] or [float] is
    [Raise ValueError]. *)
Definition clean_number (number : string) : result pyval :=
  let st := scan_number number in
  let joined_number := string_of_list_ascii (number_list st) in
  if joined_number =? "" then Ok PNone
  else
    match kind st with
    | IntType => n <- int_of_str joined_number ;; Ok (PInt n)
    | FloatType => x <- float_of_str joined_number ;; Ok (PFloat x)
    end.

Definition _new_command (new_line : instruction) (line : string)
           (multiple : bool) : result instruction :=
  line <- _remove_parenthesis line ;;
  let command_contents := Str.split "," line in
  command_action <- item command_contents 0 ;;
  command_action <- _remove_quotes command_action ;;
  let new_line :=
    if multiple
    then new_line ++ [PList (Str.split " + " command_action)]
    else new_line ++ [PStr command_action] in
  if (1 <? List.length command_contents)%nat
  then
    command_attribute <- item command_contents 1 ;;
    command_attribute <- clean_number command_attribute ;;
    match command_attribute with
    | PNone => Ok new_line
    | _ => Ok (new_line ++ [command_attribute])
    end
  else Ok new_line.

End BaseInterpreter.

(** ** The interpreters and [InterpreterFactory] *)

Inductive interpreter : Type :=
| PrintInterpreter (line : string)
| PressInterpreter (line : string)
| PauseInterpreter (line : string)
| InputInterpreter (line : string)
| CommentsInterpreter (line : string)
| EmptyLineInterpreter (line : string).

Module PrintInterpreter.
Definition interpret (line : string) : result (option instruction) :=
  let new_line := [PStr "print"] in
  let stripped_line := Str.strip (Str.drop 5 line) in
  r <- BaseInterpreter._new_command new_line stripped_line false ;; Ok (Some r).
End PrintInterpreter.

Module PressInterpreter.
Definition interpret (line : string) : result (option instruction) :=
  let new_line := [PStr "press"] in
  let stripped_line := Str.strip (Str.drop 5 line) in
  let is_multiple := Str.contains " + " line in
  r <- BaseInterpreter._new_command new_line stripped_line is_multiple ;;
  Ok (Some r).
End PressInterpreter.

Module PauseInterpreter.
Definition interpret (line : string) : result (option instruction) :=
  let new_line := [PStr "pause"] in
  let cleaned_line := Str.strip (Str.drop 5 line) in
  cleaned_line <- BaseInterpreter._remove_parenthesis cleaned_line ;;
  let cleaned_line := Str.strip cleaned_line in
  if cleaned_line =? ""
  then Ok (Some (new_line ++ [PInt 1]))
  else
    pause_length <- BaseInterpreter.clean_number cleaned_line ;;
    Ok (Some (new_line ++ [pause_length])).
End PauseInterpreter.

Module InputInterpreter.
Definition interpret (line : string) : result (option instruction) :=
  let new_line := [PStr "input"] in
  let stripped_line := Str.strip (Str.drop 5 line) in
  r <- BaseInterpreter._new_command new_line stripped_line false ;; Ok (Some r).
End InputInterpreter.

Module CommentsInterpreter.
Definition interpret (line : string) : result (option instruction) := Ok None.
End CommentsInterpreter.

Module EmptyLineInterpreter.
Definition interpret (line : string) : result (option instruction) := Ok None.
End EmptyLineInterpreter.

(** [interpreter.interpret()], dispatched on the class of the object. *)
Definition interpret (i : interpreter) : result (option instruction) :=
  match i with
  | PrintInterpreter line => PrintInterpreter.interpret line
  | PressInterpreter line => PressInterpreter.interpret line
  | PauseInterpreter line => PauseInterpreter.interpret line
  | InputInterpreter line => InputInterpreter.interpret line
  | CommentsInterpreter line => CommentsInterpreter.interpret line
  | EmptyLineInterpreter line => EmptyLineInterpreter.interpret line
  end.

Module InterpreterFactory.

(** The two fields the method assigns: [(line_start, first_character)]. *)
Definition _set_line_characteristics (line : string) : result (string * string) :=
  let lower_case_line := Str.strip (Str.lower line) in
  if (5 <? length lower_case_line)%nat
  then c <- Str.first lower_case_line ;;
       Ok (Str.take 5 lower_case_line, String c "")
  else Ok ("", "").

Definition __call__ (line : string) : result interpreter :=
  chars <- _set_line_characteristics line ;;
  let line_start := fst chars in
  let first_character := snd chars in
  Ok (if line_start =? "print" then PrintInterpreter line
      else if line_start =? "press" then PressInterpreter line
      else if line_start =? "pause" then PauseInterpreter line
      else if line_start =? "input" then InputInterpreter line
      else if first_character =? "#" then CommentsInterpreter line
      else EmptyLineInterpreter line).

End InterpreterFactory.

Module ProcedureFromText.
Definition return_procedure (procedure_text : string)
  : result (list (option instruction)) :=
  let split_text := Str.split newline procedure_text in
  mapM (fun line => i <- InterpreterFactory.__call__ line ;; interpret i)
       split_text.
End ProcedureFromText.

Module ProcedureFromList.
Definition return_procedure (procedure_list : list (option instruction))
  : result (list (option instruction)) := Ok procedure_list.
End ProcedureFromList.

(** ** Data tables *)

Module DataFromList.

Record t : Type := Build {
  data_list : list (list string);
  headers : list string;
  data_dictionary : data_set;
  height : nat;
  width : nat
}.

Definition __init__ (data_list : list (list string)) : result t :=
  first_row <- item data_list 0 ;;
  Ok (Build data_list [] [] (List.length data_list) (List.length first_row)).

Definition set_headers (self : t) (h : list string) : t :=
  Build (data_list self) h (data_dictionary self) (height self) (width self).

Definition set_data_dictionary (self : t) (d : data_set) : t :=
  Build (data_list self) (headers self) d (height self) (width self).

Definition _set_headers (self : t) : result t :=
  foldM (fun self header =>
           first_row <- item (data_list self) 0 ;;
           h <- item first_row header ;;
           Ok (set_headers self (headers self ++ [h])))
        (seq 0 (width self)) self.

Definition _read_all_column_values_except_the_keys (self : t) (row : nat)
  : result t :=
  the_row <- item (data_list self) row ;;
  key <- item the_row 0 ;;
  temp_dict <-
    foldM (fun temp_dict column =>
             header <- item (headers self) column ;;
             the_row <- item (data_list self) row ;;
             value <- item the_row column ;;
             Ok (Dict.set temp_dict header value))
          (seq 1 (width self - 1)) [] ;;
  Ok (set_data_dictionary self (Dict.set (data_dictionary self) key temp_dict)).

Definition _read_all_table_rows_except_headers (self : t) : result t :=
  foldM _read_all_column_values_except_the_keys (seq 1 (height self - 1)) self.

Definition return_data_set (self : t) : result data_set :=
  self <- _set_headers self ;;
  self <- _read_all_table_rows_except_headers self ;;
  Ok (data_dictionary self).

End DataFromList.

Module DataFromText.

Definition _clean_value_in_line (value : string) : string := Str.strip value.

(** [data_list] is the field the method appends to. *)
Definition _clean_line (data_list : list (list string)) (line : list string)
  : list (list string) :=
  let working_line := map _clean_value_in_line line in
  if list_eq_dec string_dec working_line [""]
  then data_list
  else data_list ++ [working_line].

Definition _split_each_line (delimiter : string) (text_split_by_line : list string)
  : list (list string) :=
  fold_left (fun data_list line => _clean_line data_list (Str.split delimiter line))
            text_split_by_line [].

Definition return_data_set (data_text delimiter : string) : result data_set :=
  let text_split_by_line := Str.split newline data_text in
  let data_list := _split_each_line delimiter text_split_by_line in
  list_to_dict <- DataFromList.__init__ data_list ;;
  DataFromList.return_data_set list_to_dict.

End DataFromText.

(** What [DataConverterFactory] dispatches on ([None], a list, a text). *)
Inductive data_table : Type :=
| NoTable
| TableList (rows : list (list string))
| TableText (text : string).

Module DataConverterFactory.
Definition return_data_set (table : data_table) : result (option data_set) :=
  match table with
  | NoTable => Ok None
  | TableList rows =>
      converter <- DataFromList.__init__ rows ;;
      d <- DataFromList.return_data_set converter ;; Ok (Some d)
  | TableText text =>
      d <- DataFromText.return_data_set text "," ;; Ok (Some d)
  end.
End DataConverterFactory.

(** ** Builtins on values *)

Definition py_len (v : pyval) : result Z :=
  match v with
  | PStr s => Ok (Z.of_nat (length s))
  | PList l => Ok (Z.of_nat (List.length l))
  | _ => Raise TypeError
  end.

(** Where [v[:n]] stops in a sequence of [len] items: a negative [n]
    counts from the end. *)
Definition slice_stop (len n : Z) : nat :=
  Z.to_nat (if (n <? 0)%Z then Z.max 0 (len + n) else Z.min n len).

Definition py_slice_to (v : pyval) (n : Z) : result pyval :=
  match v with
  | PStr s => Ok (PStr (Str.take (slice_stop (Z.of_nat (length s)) n) s))
  | PList l => Ok (PList (firstn (slice_stop (Z.of_nat (List.length l)) n) l))
  | _ => Raise TypeError
  end.

(** [int(v)]: a float is truncated towards zero. *)
Definition py_int (v : pyval) : result Z :=
  match v with
  | PInt z => Ok z
  | PFloat q => Ok (Z.quot (Qnum q) (Zpos (Qden q)))
  | PStr s => int_of_str s
  | PList _ | PNone => Raise TypeError
  end.

Definition is_str (v : pyval) (s : string) : bool :=
  match v with
  | PStr s' => s' =? s
  | _ => false
  end.

(** [data.get(key)]: a list is not hashable; a key that is no string is
    never among the headers. *)
Definition record_get (data : record) (key : pyval) : result pyval :=
  match key with
  | PStr k => Ok match Dict.get data k with Some v => PStr v | None => PNone end
  | PList _ => Raise TypeError
  | _ => Ok PNone
  end.

(** ** What execution does: calls into [pyautogui] and [sleep] *)

Inductive event : Type :=
| Typewrite (message : pyval)
| Press (key : pyval)
| Hotkey (keys : list string)
| Sleep (seconds : Z).

(** The events a piece of code issued, and the exception that stopped it,
    if any. *)
Record outcome : Type := Outcome {
  emitted : list event;
  raised : option exn
}.

Definition skip : outcome := Outcome [] None.

Definition emit (e : event) : outcome := Outcome [e] None.

Definition throw (e : exn) : outcome := Outcome [] (Some e).

Definition andthen (a b : outcome) : outcome :=
  match raised a with
  | Some _ => a
  | None => Outcome (emitted a ++ emitted b) (raised b)
  end.

(** [for _ in range(0, n): body]. *)
Fixpoint times (n : nat) (body : outcome) : outcome :=
  match n with
  | O => skip
  | S n' => andthen body (times n' body)
  end.

Definition for_range (n : Z) (body : outcome) : outcome := times (Z.to_nat n) body.

(** Evaluate the arguments, then make the call. *)
Definition call_with {A : Type} (args : result A) (f : A -> event) : outcome :=
  match args with
  | Ok a => emit (f a)
  | Raise e => throw e
  end.

(** ** Commands *)

Module TypeField.

Record t : Type := Build {
  instruction_ : instruction;
  data : option record;
  has_tab : bool;
  value_to_print : pyval;
  instruction_length : option Z;
  input_value_to_print : pyval
}.

(** [input_value_to_print] is assigned by the subclass before it is read;
    until then it holds [PNone] here. *)
Definition __init__ (instruction : instruction) (data : option record) : t :=
  Build instruction data false (PStr "") (Some 0%Z) PNone.

Definition set_value_to_print (self : t) (v : pyval) : t :=
  Build (instruction_ self) (data self) (has_tab self) v
        (instruction_length self) (input_value_to_print self).

Definition set_has_tab (self : t) (b : bool) : t :=
  Build (instruction_ self) (data self) b (value_to_print self)
        (instruction_length self) (input_value_to_print self).

Definition set_instruction_length (self : t) (n : option Z) : t :=
  Build (instruction_ self) (data self) (has_tab self) (value_to_print self)
        n (input_value_to_print self).

Definition set_input_value_to_print (self : t) (v : pyval) : t :=
  Build (instruction_ self) (data self) (has_tab self) (value_to_print self)
        (instruction_length self) v.

Definition _set_field (self : t) (value : pyval) (length : option Z) : result t :=
  match length with
  | Some length =>
      n <- py_len value ;;
      if (n <? length)%Z
      then Ok (set_has_tab (set_value_to_print self value) true)
      else
        n <- py_len value ;;
        if (length <? n)%Z
        then v <- py_slice_to value length ;; Ok (set_value_to_print self v)
        else Ok (set_value_to_print self value)
  | None => Ok (set_value_to_print self value)
  end.

Definition _set_length (self : t) (instruction : instruction) : result t :=
  if (List.length instruction =? 3)%nat
  then x <- item instruction 2 ;;
       n <- py_int x ;;
       Ok (set_instruction_length self (Some n))
  else Ok (set_instruction_length self None).

Definition _print_value (self : t) : outcome :=
  emit (Typewrite (value_to_print self)).

Definition _add_tab (self : t) : outcome :=
  if has_tab self then emit (Press (PStr "tab")) else skip.

End TypeField.

Inductive Command : Type :=
| InputCommand (self : TypeField.t)
| PrintCommand (self : TypeField.t)
| PauseCommand (instruction : instruction) (data_set : option record)
               (pause_length : Z)
| PressCommand (instruction : instruction) (data_set : option record)
               (keys : pyval) (presses : Z)
| UnknownCommand (instruction : instruction) (data_set : option record).

Module PrintCommand.

Definition _set_input__print_value (self : TypeField.t) (instruction : instruction)
  : result TypeField.t :=
  v <- item instruction 1 ;; Ok (TypeField.set_input_value_to_print self v).

Definition __init__ (instruction : instruction) (data : option record)
  : result Command :=
  let self := TypeField.__init__ instruction data in
  self <- _set_input__print_value self instruction ;;
  self <- TypeField._set_length self instruction ;;
  self <- TypeField._set_field self (TypeField.input_value_to_print self)
                               (TypeField.instruction_length self) ;;
  Ok (PrintCommand self).

Definition execute (self : TypeField.t) : outcome :=
  andthen (TypeField._print_value self) (TypeField._add_tab self).

End PrintCommand.

Module InputCommand.

Definition set_input__print_value (self : TypeField.t) (data_set : record)
           (instruction : instruction) : result TypeField.t :=
  key <- item instruction 1 ;;
  v <- record_get data_set key ;;
  Ok (TypeField.set_input_value_to_print self v).

Definition __init__ (instruction : instruction) (data : record)
  : result Command :=
  let self := TypeField.__init__ instruction (Some data) in
  self <- set_input__print_value self data instruction ;;
  self <- TypeField._set_length self instruction ;;
  self <- TypeField._set_field self (TypeField.input_value_to_print self)
                               (TypeField.instruction_length self) ;;
  Ok (InputCommand self).

Definition execute (self : TypeField.t) : outcome :=
  andthen (TypeField._print_value self) (TypeField._add_tab self).

End InputCommand.

Module PauseCommand.

Definition set_pause (instruction : instruction) : result Z :=
  if (List.length instruction =? 1)%nat
  then Ok 1%Z
  else x <- item instruction 1 ;; py_int x.

Definition __init__ (instruction : instruction) (data : option record)
  : result Command :=
  pause_length <- set_pause instruction ;;
  Ok (PauseCommand instruction data pause_length).

Definition execute (pause_length : Z) : outcome :=
  for_range pause_length (emit (Sleep 1)).

End PauseCommand.

Module PressCommand.

Definition __init__ (instruction : instruction) (data : option record)
  : result Command :=
  keys <- item instruction 1 ;;
  presses <-
    (if (List.length instruction =? 3)%nat
     then x <- item instruction 2 ;; py_int x
     else Ok 1%Z) ;;
  Ok (PressCommand instruction data keys presses).

(** The body of the loop: one press. *)
Definition press_once (keys : pyval) : outcome :=
  match keys with
  | PList keys =>
      if (List.length keys =? 2)%nat
      then call_with (k0 <- item keys 0 ;; k1 <- item keys 1 ;;
                      Ok [k0; k1]) Hotkey
      else if (List.length keys =? 3)%nat
      then call_with (k0 <- item keys 0 ;; k1 <- item keys 1 ;;
                      k2 <- item keys 2 ;; Ok [k0; k1; k2]) Hotkey
      else if (List.length keys =? 4)%nat
      then call_with (k0 <- item keys 0 ;; k1 <- item keys 1 ;;
                      k2 <- item keys 2 ;; k4 <- item keys 4 ;;
                      Ok [k0; k1; k2; k4]) Hotkey
      else if (List.length keys =? 5)%nat
      then call_with (k0 <- item keys 0 ;; k1 <- item keys 1 ;;
                      k2 <- item keys 2 ;; k3 <- item keys 3 ;;
                      k4 <- item keys 4 ;; Ok [k0; k1; k2; k3; k4]) Hotkey
      else skip
  | _ => emit (Press keys)
  end.

Definition execute (keys : pyval) (presses : Z) : outcome :=
  for_range presses (press_once keys).

End PressCommand.

Module UnknownCommand.

Definition __init__ (instruction : instruction) (data : option record)
  : result Command := Ok (UnknownCommand instruction data).

Definition execute : outcome := skip.

End UnknownCommand.

(** [command.execute()], dispatched on the class of the object. *)
Definition execute (command : Command) : outcome :=
  match command with
  | InputCommand self => InputCommand.execute self
  | PrintCommand self => PrintCommand.execute self
  | PauseCommand _ _ pause_length => PauseCommand.execute pause_length
  | PressCommand _ _ keys presses => PressCommand.execute keys presses
  | UnknownCommand _ _ => UnknownCommand.execute
  end.

Module CommandFactory.

Definition __call__ (instruction_list : instruction) (data : option record)
  : result Command :=
  head <- item instruction_list 0 ;;
  match is_str head "input", data with
  | true, Some data => InputCommand.__init__ instruction_list data
  | _, _ =>
      if is_str head "press" then PressCommand.__init__ instruction_list data
      else if is_str head "print" then PrintCommand.__init__ instruction_list data
      else if is_str head "pause" then PauseCommand.__init__ instruction_list data
      else UnknownCommand.__init__ instruction_list data
  end.

End CommandFactory.

(** ** [ProcedureBuilder] and [ProcedureCommander] *)

Module ProcedureBuilder.

Section Builder.

(** The fields of the builder. *)
Variable procedure : list (option instruction).
Variable data_set_ : option data_set.
Variable command_factory : instruction -> option record -> result Command.

(** [self.data_set[data]]. *)
Definition lookup_record (data : string) : result record :=
  match data_set_ with
  | None => Raise TypeError
  | Some d => of_option KeyError (Dict.get d data)
  end.

Definition _add_command_to_procedure_set (procedure_set : list Command)
           (procedure : instruction) (data : option string)
  : result (list Command) :=
  command <-
    match data with
    | None => command_factory procedure None
    | Some data => r <- lookup_record data ;;
                   command_factory procedure (Some r)
    end ;;
  Ok (procedure_set ++ [command]).

Definition _build_procedure_for_each_action (procedure_set : list Command)
           (data : option string) : result (list Command) :=
  foldM (fun procedure_set procedure_row =>
           match procedure_row with
           | Some procedure_row =>
               _add_command_to_procedure_set procedure_set procedure_row data
           | None => Ok procedure_set
           end)
        procedure procedure_set.

Definition _build_procedure_for_each_data_record
           (procedure_set : list Command) : result (list Command) :=
  match data_set_ with
  | None => _build_procedure_for_each_action procedure_set None
  | Some d =>
      foldM (fun procedure_set data_row =>
               _build_procedure_for_each_action procedure_set (Some data_row))
            (Dict.keys d) procedure_set
  end.

Definition build_procedure_set : result (list Command) :=
  _build_procedure_for_each_data_record [].

End Builder.

End ProcedureBuilder.

Module ProcedureCommander.
Definition execute (procedure_set : list Command) : outcome :=
  fold_right (fun command rest => andthen (execute command) rest)
             skip procedure_set.
End ProcedureCommander.

(** ** [Pynputter] *)

Inductive procedure_source : Type :=
| ProcedureList (procedure_list : list (option instruction))
| ProcedureText (procedure_text : string).

Module Pynputter.

Definition __init__ (procedure : procedure_source) (table : data_table)
  : result (list (option instruction) * option data_set) :=
  procedure <-
    match procedure with
    | ProcedureList l => ProcedureFromList.return_procedure l
    | ProcedureText s => ProcedureFromText.return_procedure s
    end ;;
  data_set <- DataConverterFactory.return_data_set table ;;
  Ok (procedure, data_set).

Definition __call__ (self : list (option instruction) * option data_set)
  : outcome :=
  match ProcedureBuilder.build_procedure_set (fst self) (snd self)
                                              CommandFactory.__call__ with
  | Ok procedure_set => ProcedureCommander.execute procedure_set
  | Raise e => throw e
  end.

Definition run (procedure : procedure_source) (table : data_table) : outcome :=
  match __init__ procedure table with
  | Ok self => __call__ self
  | Raise e => throw e
  end.

End Pynputter.

(** ** The numeric extractor as the specification words it

    The accumulation keeps the digit characters and the first point: the
    digits of what stands before the first point and, when there is a
    point, the point and the digits of what stands after it. *)

Fixpoint digits_of (s : string) : string :=
  match s with
  | EmptyString => EmptyString
  | String c s' => if Str.isdigit c then String c (digits_of s') else digits_of s'
  end.

Fixpoint until_point (s : string) : string :=
  match s with
  | EmptyString => EmptyString
  | String c s' => if (c =? ".")%char then EmptyString else String c (until_point s')
  end.

Fixpoint after_point (s : string) : string :=
  match s with
  | EmptyString => EmptyString
  | String c s' => if (c =? ".")%char then s' else after_point s'
  end.

Definition has_digit (s : string) : bool := negb (digits_of s =? "").

Definition has_point (s : string) : bool := Str.mem "." s.

Definition accumulation (s : string) : string :=
  if has_point s
  then digits_of (until_point s) ++ "." ++ digits_of (after_point s)
  else digits_of s.

(** The number a string of digits writes, read after [acc]. *)
Fixpoint value_from (acc : Z) (digits : string) : Z :=
  match digits with
  | EmptyString => acc
  | String c d => value_from (acc * 10 + digit_value c)%Z d
  end.

(** The integer written by the digits of [s], and the decimal number
    written by [s] when it has one point. *)
Definition int_value (s : string) : Z := value_from 0 (digits_of s).

Definition float_value (s : string) : Q :=
  decimal (int_value s, length (digits_of (after_point s))).

Definition extract (s : string) : pyval :=
  if has_digit s
  then if has_point s
       then PFloat (float_value (accumulation s))
       else PInt (int_value (accumulation s))
  else PNone.

(** ** The other statements of the specification *)


(** The instruction of a [print] or [input] line with its optional width. *)
Definition type_instruction (keyword action : string) (w : option Z) : instruction :=
  [PStr keyword; PStr action] ++
  match w with
  | Some w => [PInt w]
  | None => []
  end.

(** The instructions that are not no-ops, in source order. *)
Fixpoint live_instructions (procedure : list (option instruction))
  : list instruction :=
  match procedure with
  | [] => []
  | Some i :: rest => i :: live_instructions rest
  | None :: rest => live_instructions rest
  end.

(** The records a procedure is replayed on: those of the table in their
    stored order, or a single pass that binds no record. *)
Definition bound_records (data : option data_set) : list (option record) :=
  match data with
  | None => [None]
  | Some d => map Some (Dict.values d)
  end.

(** Loading a table given as a list of rows. *)
Definition load_table (rows : list (list string)) : result data_set :=
  converter <- DataFromList.__init__ rows ;;
  DataFromList.return_data_set converter.

(** The data table claim as it is worded: every row is found under its
    column 0, with a record that maps each header of columns [1..N-1] to
    the value of the row in that column. *)
Definition keyed_by_first_column (H : list string) (rows : list (list string))
  : Prop :=
  exists d,
    load_table (H :: rows) = Ok d /\
    forall Ri, In Ri rows ->
      exists key rec,
        nth_error Ri 0 = Some key /\ Dict.get d key = Some rec /\
        forall j h v, 1 <= j < List.length H ->
                      nth_error H j = Some h -> nth_error Ri j = Some v ->
                      Dict.get rec h = Some v.

(** Resolving one instruction against the record stored under the key
    [k], or against no record: what [_add_command_to_procedure_set]
    appends. *)
Definition resolve_with (data : option data_set)
           (factory : instruction -> option record -> result Command)
           (k : option string) (p : instruction) : result Command :=
  match k with
  | None => factory p None
  | Some k => r <- ProcedureBuilder.lookup_record data k ;; factory p (Some r)
  end.

(** The loader in closed form: the record of a row pairs the headers of
    columns [1..N-1] with the values of the row, and the table assigns the
    record of each row to the key in its column 0, row after row. *)
Definition record_of (H R : list string) : record :=
  fold_left (fun temp_dict hv => Dict.set temp_dict (fst hv) (snd hv))
            (combine (tl H) (tl R)) [].

Definition table_of (H : list string) (rows : list (list string)) : data_set :=
  fold_left (fun d R => Dict.set d (hd "" R) (record_of H R)) rows [].

(** ** Statements about the rest of the code *)

(** The four keywords of the macro language. *)
Definition is_keyword (s : string) : bool :=
  (s =? "print") || (s =? "press") || (s =? "pause") || (s =? "input").

(** Classifying a line and interpreting it, as [ProcedureFromText] does
    for each line. *)
Definition parse_line (line : string) : result (option instruction) :=
  i <- InterpreterFactory.__call__ line ;; interpret i.

(** The pieces [_new_command] cuts a line into: the line without its
    parentheses, split at the commas. *)
Definition command_contents (line : string) : list string :=
  match BaseInterpreter._remove_parenthesis line with
  | Ok l => Str.split "," l
  | Raise _ => []
  end.

Definition action_part (line : string) : string := hd "" (command_contents line).

Definition attribute_part (line : string) : option string :=
  nth_error (command_contents line) 1.


(** The arity the loader needs of every row below a header row [H]: the
    row is read at column 0 and at every column of [H]. *)
Definition needed_arity (H : list string) : nat := Nat.max 1 (List.length H).

Definition long_enough (H R : list string) : bool :=
  (needed_arity H <=? List.length R)%nat.

(** The keys of a list in the order of their first occurrence. *)
Definition first_occurrences (keys : list string) : list string :=
  fold_left (fun seen k => if existsb (String.eqb k) seen then seen else seen ++ [k])
            keys [].

(** The number of occurrences of a character in a string. *)
Fixpoint count_char (c : ascii) (s : string) : nat :=
  match s with
  | EmptyString => 0
  | String d s' => (if (c =? d)%char then 1 else 0) + count_char c s'
  end.

(** A table written as text: the fields of a row joined by commas, the
    rows joined by newlines. *)
Definition table_text (rows : list (list string)) : string :=
  String.concat newline (map (String.concat ",") rows).

(** A field that survives the trip through text: trimmed, and with no
    comma and no newline in it. *)
Definition plain_field (f : string) : bool :=
  (Str.strip f =? f) && negb (Str.mem "," f) && negb (Str.mem (ascii_of_nat 10) f).

(** An action that a [print] or [input] line carries unchanged: not
    empty, trimmed, with no comma and no parenthesis, and not starting
    with a quote. *)
Definition plain_action (t : string) : bool :=
  match t with
  | EmptyString => false
  | String c _ =>
      negb ((c =? dquote)%char || (c =? "'")%char) &&
      (Str.strip t =? t) &&
      negb (Str.mem "," t || Str.mem "(" t || Str.mem ")" t)
  end.

(** A non-empty string of digits. *)
Definition all_digits (d : string) : bool :=
  (digits_of d =? d) && negb (d =? "").

(** * Properties *)

(** ** Characters *)

Ltac ascii_cases c :=
  destruct c as [[|] [|] [|] [|] [|] [|] [|] [|]].

Lemma isdigit_not_space (c : ascii) :
  Str.isdigit c = true -> Str.isspace c = false.
Proof. ascii_cases c; vm_compute; congruence. Qed.

Lemma isdigit_not_point (c : ascii) :
  Str.isdigit c = true -> (c =? ".")%char = false.
Proof. ascii_cases c; vm_compute; congruence. Qed.

Lemma isdigit_not_underscore (c : ascii) :
  Str.isdigit c = true -> (c =? "_")%char = false.
Proof. ascii_cases c; vm_compute; congruence. Qed.

Lemma point_not_digit : Str.isdigit "." = false.
Proof. reflexivity. Qed.

(** ** Strings of digits *)


Lemma digits_of_idem (s : string) : digits_of (digits_of s) = digits_of s.
Proof.
  induction s as [|c s IH]; simpl; [reflexivity|].
  destruct (Str.isdigit c) eqn:E; simpl; [rewrite E, IH|]; auto.
Qed.

Lemma after_point_digits (a b : string) :
  after_point (digits_of a ++ "." ++ b) = b.
Proof.
  induction a as [|c a IH]; simpl; [reflexivity|].
  destruct (Str.isdigit c) eqn:E; simpl; [|exact IH].
  now rewrite (isdigit_not_point c E).
Qed.

Lemma lstrip_digits (s : string) : Str.lstrip (digits_of s) = digits_of s.
Proof.
  induction s as [|c s IH]; simpl; [reflexivity|].
  destruct (Str.isdigit c) eqn:E; simpl; [|exact IH].
  now rewrite (isdigit_not_space c E).
Qed.

Lemma rstrip_digits (s : string) : Str.rstrip (digits_of s) = digits_of s.
Proof.
  induction s as [|c s IH]; simpl; [reflexivity|].
  destruct (Str.isdigit c) eqn:E; simpl; [|exact IH].
  now rewrite (isdigit_not_space c E), IH.
Qed.

Lemma strip_digits (s : string) : Str.strip (digits_of s) = digits_of s.
Proof. unfold Str.strip. now rewrite lstrip_digits, rstrip_digits. Qed.

Lemma int_body_digits (s : string) (acc : Z) (b : bool) :
  int_body acc b (digits_of s) =
  if b || has_digit s then Some (value_from acc (digits_of s)) else None.
Proof.
  revert acc b; induction s as [|c s IH]; intros acc b; simpl.
  - unfold has_digit; simpl. now destruct b.
  - unfold has_digit in *; simpl. destruct (Str.isdigit c) eqn:E; simpl.
    + rewrite E, IH. simpl. now rewrite orb_true_r.
    + apply IH.
Qed.

Lemma int_of_str_digits (s : string) :
  has_digit s = true -> int_of_str (digits_of s) = Ok (int_value s).
Proof.
  intros H. unfold int_of_str. rewrite strip_digits.
  assert (E : int_body 0 false (digits_of s) = Some (int_value s)).
  { rewrite int_body_digits, H. reflexivity. }
  destruct (digits_of s) as [|c d] eqn:D.
  - unfold has_digit in H. rewrite D in H. discriminate.
  - assert (Hc : Str.isdigit c = true).
    { assert (X : digits_of (String c d) = String c d)
        by (rewrite <- D; apply digits_of_idem).
      simpl in X. destruct (Str.isdigit c); [reflexivity|].
      exfalso. clear -X. 
      assert (L : length (digits_of d) <= length d).
      { clear. induction d as [|e d IH]; simpl; [lia|].
        destruct (Str.isdigit e); simpl; lia. }
      rewrite X in L. simpl in L. lia. }
    revert E. ascii_cases c; try discriminate Hc; intros E; cbv beta match; now rewrite E.
Qed.






(** ** The scanning loop of [clean_number] *)

Lemma scan_after_point (s : string) (l : list ascii) :
  fold_left BaseInterpreter.scan_character (list_ascii_of_string s)
            (Scan l FloatType) =
  Scan (l ++ list_ascii_of_string (digits_of s)) FloatType.
Proof.
  revert l; induction s as [|c s IH]; intros l; simpl.
  - now rewrite app_nil_r.
  - unfold BaseInterpreter.scan_character at 2; simpl.
    destruct (Str.isdigit c); simpl.
    + rewrite IH, <- app_assoc. reflexivity.
    + apply IH.
Qed.

Lemma has_point_cons (c : ascii) (s : string) :
  has_point (String c s) = (c =? ".")%char || has_point s.
Proof. unfold has_point; simpl. now rewrite Ascii.eqb_sym. Qed.

Lemma scan_before_point (s : string) (l : list ascii) :
  fold_left BaseInterpreter.scan_character (list_ascii_of_string s)
            (Scan l IntType) =
  if has_point s
  then Scan (l ++ list_ascii_of_string
                    (digits_of (until_point s) ++ "." ++ digits_of (after_point s)))
            FloatType
  else Scan (l ++ list_ascii_of_string (digits_of s)) IntType.
Proof.
  revert l; induction s as [|c s IH]; intros l.
  - simpl. now rewrite app_nil_r.
  - rewrite has_point_cons. simpl.
    unfold BaseInterpreter.scan_character at 2; simpl.
    destruct (c =? ".")%char eqn:P; simpl.
    + apply Ascii.eqb_eq in P. subst c.
      rewrite scan_after_point, <- app_assoc. reflexivity.
    + destruct (Str.isdigit c) eqn:E; simpl.
      * rewrite IH. destruct (has_point s); rewrite <- app_assoc; reflexivity.
      * apply IH.
Qed.

Lemma scan_number_spec (s : string) :
  BaseInterpreter.scan_number s =
  Scan (list_ascii_of_string (accumulation s))
       (if has_point s then FloatType else IntType).
Proof.
  unfold BaseInterpreter.scan_number, accumulation.
  rewrite scan_before_point. now destruct (has_point s).
Qed.

Lemma digits_of_split (s : string) :
  has_point s = true ->
  digits_of s = (digits_of (until_point s) ++ digits_of (after_point s))%string.
Proof.
  induction s as [|c s IH]; [discriminate|].
  rewrite has_point_cons. simpl.
  destruct (c =? ".")%char eqn:P; simpl.
  - apply Ascii.eqb_eq in P. subst c. reflexivity.
  - intros H. destruct (Str.isdigit c); simpl; now rewrite IH.
Qed.

(** What [clean_number] computes, whatever the string. *)
Lemma clean_number_unfold (s : string) :
  BaseInterpreter.clean_number s =
  let joined_number := accumulation s in
  if joined_number =? "" then Ok PNone
  else if has_point s
       then x <- float_of_str joined_number ;; Ok (PFloat x)
       else n <- int_of_str joined_number ;; Ok (PInt n).
Proof.
  unfold BaseInterpreter.clean_number. rewrite scan_number_spec. simpl.
  rewrite string_of_list_ascii_of_string. now destruct (has_point s).
Qed.



(** C4.  For a string with no digit, [clean_number] returns [None] only
    when the string has no point either: with a point the accumulation is
    the lone point, and [float] raises [ValueError] on it. *)
Theorem clean_number_without_digit :
  BaseInterpreter.clean_number "abc" = Ok PNone /\
  BaseInterpreter.clean_number "." = Raise ValueError /\
  forall s, has_digit s = false ->
            BaseInterpreter.clean_number s =
            if has_point s then Raise ValueError else Ok PNone.
Proof.
  split; [reflexivity|split; [reflexivity|]].
  intros s H. rewrite clean_number_unfold. cbv zeta.
  unfold accumulation, has_digit in *.
  apply negb_false_iff, String.eqb_eq in H.
  destruct (has_point s) eqn:P.
  - pose proof (digits_of_split s P) as D. rewrite H in D.
    destruct (digits_of (until_point s)); [|discriminate].
    simpl in D. rewrite <- D. reflexivity.
  - now rewrite H.
Qed.

(** ** Classification *)

Lemma first_of_long (s : string) :
  0 < length s -> exists c, Str.first s = Ok c.
Proof. destruct s as [|c s]; simpl; [lia|]. intros _. now exists c. Qed.

Lemma classification_total (line : string) :
  exists i, InterpreterFactory.__call__ line = Ok i.
Proof.
  unfold InterpreterFactory.__call__, InterpreterFactory._set_line_characteristics.
  destruct (5 <? length (Str.strip (Str.lower line)))%nat eqn:L.
  - apply Nat.ltb_lt in L.
    destruct (first_of_long (Str.strip (Str.lower line))) as [c Hc]; [lia|].
    rewrite Hc. cbn [bind]. eexists; reflexivity.
  - cbn [bind]. eexists; reflexivity.
Qed.

(** C5.  A keyword matches only when the trimmed, lowercased line is
    longer than 5 characters, and then exactly when its first 5 characters
    are the keyword; the line [print] is an empty line, the line [printx]
    is a print line.  Classification never raises. *)
Theorem classification_boundary :
  InterpreterFactory.__call__ "print" = Ok (EmptyLineInterpreter "print") /\
  InterpreterFactory.__call__ "printx" = Ok (PrintInterpreter "printx") /\
  InterpreterFactory.__call__ "PrInTx" = Ok (PrintInterpreter "PrInTx") /\
  forall line,
    let l := Str.strip (Str.lower line) in
    exists i,
      InterpreterFactory.__call__ line = Ok i /\
      (length l <= 5 -> i = EmptyLineInterpreter line) /\
      (5 < length l ->
       (i = PrintInterpreter line <-> Str.take 5 l = "print") /\
       (i = PressInterpreter line <-> Str.take 5 l = "press") /\
       (i = PauseInterpreter line <-> Str.take 5 l = "pause") /\
       (i = InputInterpreter line <-> Str.take 5 l = "input")).
Proof.
  split; [reflexivity|split; [reflexivity|split; [reflexivity|]]].
  intros line l.
  unfold InterpreterFactory.__call__, InterpreterFactory._set_line_characteristics.
  fold l. destruct (5 <? length l)%nat eqn:L.
  - apply Nat.ltb_lt in L.
    destruct (first_of_long l) as [c Hc]; [lia|]. rewrite Hc. cbn [bind fst snd].
    eexists; split; [reflexivity|]. split; [lia|]. intros _.
    destruct (Str.take 5 l =? "print") eqn:E1;
      [apply String.eqb_eq in E1; rewrite E1; cbn [String.eqb Ascii.eqb Bool.eqb];
       repeat split; intros; (reflexivity || discriminate)|].
    destruct (Str.take 5 l =? "press") eqn:E2;
      [apply String.eqb_eq in E2; rewrite E2; cbn [String.eqb Ascii.eqb Bool.eqb];
       repeat split; intros; (reflexivity || discriminate)|].
    destruct (Str.take 5 l =? "pause") eqn:E3;
      [apply String.eqb_eq in E3; rewrite E3; cbn [String.eqb Ascii.eqb Bool.eqb];
       repeat split; intros; (reflexivity || discriminate)|].
    destruct (Str.take 5 l =? "input") eqn:E4;
      [apply String.eqb_eq in E4; rewrite E4; cbn [String.eqb Ascii.eqb Bool.eqb];
       repeat split; intros; (reflexivity || discriminate)|].
    apply String.eqb_neq in E1, E2, E3, E4.
    destruct (String c "" =? "#");
      repeat split; intros; (discriminate || contradiction).
  - apply Nat.ltb_ge in L. simpl.
    eexists; split; [reflexivity|]. split; [reflexivity|]. intros; lia.
Qed.

(** ** Commands *)

(** C10.  With no data table the factory resolves every instruction whose
    keyword is [input] to [UnknownCommand], whose execution issues nothing
    and raises nothing; this covers every instruction [InputInterpreter]
    produces. *)
Theorem input_without_data_is_unknown :
  (forall rest,
     let instruction := PStr "input" :: rest in
     CommandFactory.__call__ instruction None = Ok (UnknownCommand instruction None) /\
     execute (UnknownCommand instruction None) = Outcome [] None) /\
  (forall line instruction,
     InputInterpreter.interpret line = Ok (Some instruction) ->
     CommandFactory.__call__ instruction None = Ok (UnknownCommand instruction None)).
Proof.
  split.
  - intros rest instruction. split; reflexivity.
  - intros line instruction.
    unfold InputInterpreter.interpret, BaseInterpreter._new_command.
    destruct (BaseInterpreter._remove_parenthesis _) as [l|e]; simpl; [|discriminate].
    destruct (item (Str.split "," l) 0) as [a|e]; simpl; [|discriminate].
    destruct (BaseInterpreter._remove_quotes a) as [q|e]; simpl; [|discriminate].
    destruct (1 <? List.length (Str.split "," l))%nat; simpl.
    + destruct (item (Str.split "," l) 1) as [b|e]; simpl; [|discriminate].
      destruct (BaseInterpreter.clean_number b) as [n|e]; simpl; [|discriminate].
      destruct n; simpl; intros H; injection H as <-; reflexivity.
    + intros H; injection H as <-; reflexivity.
Qed.

Lemma times_emit (n : nat) (e : event) :
  times n (emit e) = Outcome (repeat e n) None.
Proof.
  induction n as [|n IH]; simpl; [reflexivity|].
  rewrite IH. reflexivity.
Qed.

Lemma times_throw (n : nat) (e : exn) :
  0 < n -> times n (throw e) = Outcome [] (Some e).
Proof. destruct n; [lia|reflexivity]. Qed.

(** C2.  A chord of 2, 3 or 5 keys is issued once per repeat with exactly
    the listed keys.  A chord of 4 keys reads [keys[4]], which is out of
    bounds: the first repeat raises [IndexError] before any key is sent. *)
Theorem press_chord :
  (forall keys n,
     List.length keys = 2 \/ List.length keys = 3 \/ List.length keys = 5 ->
     PressCommand.execute (PList keys) n =
     Outcome (repeat (Hotkey keys) (Z.to_nat n)) None) /\
  (forall keys n,
     List.length keys = 4 -> (0 < n)%Z ->
     PressCommand.execute (PList keys) n = Outcome [] (Some IndexError)) /\
  (exists c,
     CommandFactory.__call__
       [PStr "press"; PList ["ctrl"; "alt"; "shift"; "esc"]] None = Ok c /\
     execute c = Outcome [] (Some IndexError)).
Proof.
  split; [|split].
  - intros keys n H. unfold PressCommand.execute, for_range.
    rewrite <- times_emit. f_equal.
    destruct keys as [|k0 [|k1 [|k2 [|k3 [|k4 [|k5 keys]]]]]];
      simpl in H; try lia; reflexivity.
  - intros keys n H Hn. unfold PressCommand.execute, for_range.
    destruct keys as [|k0 [|k1 [|k2 [|k3 [|k4 keys]]]]]; simpl in H; try lia.
    apply times_throw. lia.
  - eexists. split; reflexivity.
Qed.

(** C8.  An [input] whose field is missing from the record resolves with
    the value [None] only when no width is given; with a width,
    [_set_field] takes [len(None)] and resolution raises [TypeError]. *)
Theorem input_missing_field :
  (forall data field w,
     Dict.get data field = None ->
     InputCommand.__init__ (type_instruction "input" field (Some w)) data =
     Raise TypeError) /\
  (forall data field,
     Dict.get data field = None ->
     exists c,
       InputCommand.__init__ (type_instruction "input" field None) data = Ok c /\
       execute c = Outcome [Typewrite PNone] None) /\
  CommandFactory.__call__ [PStr "input"; PStr "age"; PInt 5]
                          (Some [("name", "Alice")]) = Raise TypeError.
Proof.
  split; [|split].
  - intros data field w H.
    unfold InputCommand.__init__, InputCommand.set_input__print_value. simpl.
    rewrite H. reflexivity.
  - intros data field H.
    unfold InputCommand.__init__, InputCommand.set_input__print_value. simpl.
    rewrite H. eexists. split; reflexivity.
  - reflexivity.
Qed.

Lemma last_of_nonempty (c : ascii) (t : string) :
  exists d, Str.last (String c t) = Ok d.
Proof.
  revert c; induction t as [|c' t IH]; intros c.
  - now exists c.
  - destruct (IH c') as [d Hd]. exists d. exact Hd.
Qed.

Lemma mem_nonempty (c : ascii) (t : string) :
  Str.mem c t = true -> exists d t', t = String d t'.
Proof. destruct t as [|d t']; [discriminate|]. intros _. now exists d, t'. Qed.

Lemma remove_parenthesis_total (line : string) :
  exists l, BaseInterpreter._remove_parenthesis line = Ok l.
Proof.
  unfold BaseInterpreter._remove_parenthesis.
  set (s := Str.strip line).
  assert (A : exists s1,
            (if Str.mem "(" s
             then c <- Str.first s ;;
                  Ok (if (c =? "(")%char then Str.drop 1 s else s)
             else Ok s) = Ok s1).
  { destruct (Str.mem "(" s) eqn:M; [|now exists s].
    destruct (mem_nonempty _ _ M) as (d & t' & ->). simpl. eexists; reflexivity. }
  destruct A as [s1 ->]. cbn [bind].
  destruct (Str.mem ")" s1) eqn:M; [|now exists s1].
  destruct (mem_nonempty _ _ M) as (d & t' & ->).
  destruct (last_of_nonempty d t') as [e ->]. cbn [bind]. eexists; reflexivity.
Qed.

(** C7.  Classification never raises and [_remove_parenthesis] never
    raises, but [_remove_quotes] reads the first character of an action
    that may be empty: a keyword line whose action part is empty raises
    [IndexError], and an attribute made of a lone point raises
    [ValueError]. *)
Theorem parsing_can_raise :
  (forall line, exists i, InterpreterFactory.__call__ line = Ok i) /\
  (forall line, exists l, BaseInterpreter._remove_parenthesis line = Ok l) /\
  BaseInterpreter._remove_quotes "" = Raise IndexError /\
  ProcedureFromText.return_procedure "print ,5" = Raise IndexError /\
  ProcedureFromText.return_procedure "print ()" = Raise IndexError /\
  ProcedureFromText.return_procedure "input ,3" = Raise IndexError /\
  ProcedureFromText.return_procedure "print a, ." = Raise ValueError /\
  ProcedureFromText.return_procedure "fizzle 123" = Ok [None].
Proof.
  split; [exact classification_total|].
  split; [exact remove_parenthesis_total|].
  repeat split.
Qed.

(** ** Widths that come from the parser *)

Lemma value_from_nonneg (d : string) (acc : Z) :
  (0 <= acc)%Z -> (0 <= value_from acc d)%Z.
Proof.
  revert acc; induction d as [|c d IH]; intros acc H; simpl; [exact H|].
  apply IH. unfold digit_value. lia.
Qed.

Lemma float_body_nonneg (s : string) (m : Z) (k : nat) (dot any : bool)
      (m' : Z) (k' : nat) :
  (0 <= m)%Z -> float_body m k dot any s = Some (m', k') -> (0 <= m')%Z.
Proof.
  revert m k dot any; induction s as [|c s IH]; intros m k dot any H; simpl.
  - destruct any; [|discriminate]. intros E; injection E as <- <-. exact H.
  - destruct (Str.isdigit c).
    + apply IH. unfold digit_value. lia.
    + destruct ((c =? ".")%char && negb dot); [|discriminate]. now apply IH.
Qed.

Lemma decimal_trunc_nonneg (m : Z) (k : nat) :
  (0 <= m)%Z ->
  (0 <= Z.quot (Qnum (decimal (m, k))) (Zpos (Qden (decimal (m, k)))))%Z.
Proof.
  intros H. unfold decimal. cbn [fst snd].
  pose proof (Qred_correct (m # pow10 k)) as E.
  revert E. generalize (Qred (m # pow10 k)). intros [a b] E.
  unfold Qeq in E. simpl in *.
  apply Z.quot_pos; [|lia].
  destruct (Z.lt_ge_cases a 0) as [N|N]; [|exact N].
  assert (a * Z.pos (pow10 k) < 0)%Z by (apply Z.mul_neg_pos; lia).
  assert (0 <= m * Z.pos b)%Z by (apply Z.mul_nonneg_nonneg; lia).
  lia.
Qed.

(** X1.  Whatever [clean_number] returns for an attribute, the width,
    count or duration that [int] makes of it is not negative. *)
Lemma parsed_attribute_nonneg (s : string) (v : pyval) (n : Z) :
  BaseInterpreter.clean_number s = Ok v -> py_int v = Ok n -> (0 <= n)%Z.
Proof.
  rewrite clean_number_unfold. cbv zeta. unfold accumulation.
  destruct (has_point s) eqn:P.
  - match goal with |- context [?a =? ""] => destruct (a =? "") end.
    + intros E; injection E as <-. discriminate.
    + unfold float_of_str.
      destruct (float_body 0 0 false false _) as [[m k]|] eqn:F; simpl;
        [|discriminate].
      intros E; injection E as <-. simpl. intros E; injection E as <-.
      apply decimal_trunc_nonneg. apply (float_body_nonneg _ _ _ _ _ _ _ (Z.le_refl 0) F).
  - destruct (digits_of s =? "") eqn:D.
    + intros E; injection E as <-. discriminate.
    + rewrite <- (digits_of_idem s) at 1.
      rewrite int_of_str_digits.
      2:{ unfold has_digit. now rewrite digits_of_idem, D. }
      simpl. intros E; injection E as <-. simpl. intros E; injection E as <-.
      apply value_from_nonneg. lia.
Qed.

(** ** Width and tab resolution *)





(** ** Loops that append *)

Section Loops.

Context {A B : Type}.

Lemma bind_ok (c : result B) : (x <- c ;; Ok x) = c.
Proof. now destruct c. Qed.

Lemma foldM_append (f : A -> result B) (l : list A) (s : list B) :
  foldM (fun s a => b <- f a ;; Ok (s ++ [b])) l s =
  (bs <- mapM f l ;; Ok (s ++ bs)).
Proof.
  revert s; induction l as [|a l IH]; intros s; simpl.
  - now rewrite app_nil_r.
  - destruct (f a) as [b|e]; simpl; [|reflexivity].
    rewrite IH. destruct (mapM f l) as [bs|e]; simpl; [|reflexivity].
    now rewrite <- app_assoc.
Qed.

Lemma foldM_append_lists (g : A -> result (list B)) (l : list A) (s : list B) :
  foldM (fun s a => bs <- g a ;; Ok (s ++ bs)) l s =
  (bss <- mapM g l ;; Ok (s ++ List.concat bss)).
Proof.
  revert s; induction l as [|a l IH]; intros s; simpl.
  - now rewrite app_nil_r.
  - destruct (g a) as [bs|e]; simpl; [|reflexivity].
    rewrite IH. destruct (mapM g l) as [bss|e]; simpl; [|reflexivity].
    now rewrite <- app_assoc.
Qed.

Lemma mapM_length (f : A -> result B) (l : list A) (bs : list B) :
  mapM f l = Ok bs -> List.length bs = List.length l.
Proof.
  revert bs; induction l as [|a l IH]; intros bs; simpl.
  - intros H; injection H as <-; reflexivity.
  - destruct (f a) as [b|e]; simpl; [|discriminate].
    destruct (mapM f l) as [bs'|e]; simpl; [|discriminate].
    intros H; injection H as <-. simpl. now rewrite (IH bs').
Qed.

Lemma mapM_nth (f : A -> result B) (l : list A) (bs : list B) (j : nat) (a : A) :
  mapM f l = Ok bs -> nth_error l j = Some a ->
  exists b, nth_error bs j = Some b /\ f a = Ok b.
Proof.
  revert bs j; induction l as [|a' l IH]; intros bs j; simpl.
  - destruct j; discriminate.
  - destruct (f a') as [b|e] eqn:F; simpl; [|discriminate].
    destruct (mapM f l) as [bs'|e]; simpl; [|discriminate].
    intros H; injection H as <-. destruct j as [|j]; simpl.
    + intros H; injection H as <-. now exists b.
    + intros H. now apply IH.
Qed.

Lemma mapM_total (f : A -> result B) (l : list A) :
  (forall a, In a l -> exists b, f a = Ok b) -> exists bs, mapM f l = Ok bs.
Proof.
  induction l as [|a l IH]; intros H; simpl.
  - now exists [].
  - destruct (H a) as [b ->]; [now left|].
    destruct IH as [bs ->]; [intros; apply H; now right|].
    simpl. now exists (b :: bs).
Qed.

Lemma concat_length (n : nat) (bss : list (list B)) :
  (forall bs, In bs bss -> List.length bs = n) ->
  List.length (List.concat bss) = List.length bss * n.
Proof.
  induction bss as [|bs bss IH]; intros H; simpl; [reflexivity|].
  rewrite length_app, IH, (H bs); [reflexivity|now left|].
  intros; apply H; now right.
Qed.

Lemma concat_nth (n : nat) (bss : list (list B)) (i j : nat) (bs : list B) :
  (forall bs, In bs bss -> List.length bs = n) ->
  nth_error bss i = Some bs -> j < n ->
  nth_error (List.concat bss) (i * n + j) = nth_error bs j.
Proof.
  revert i; induction bss as [|bs' bss IH]; intros i H Hi Hj.
  - destruct i; discriminate.
  - assert (L : List.length bs' = n) by (apply H; now left).
    destruct i as [|i]; simpl in *.
    + injection Hi as ->. apply nth_error_app1. lia.
    + rewrite nth_error_app2 by lia.
      replace (n + i * n + j - List.length bs') with (i * n + j) by lia.
      apply IH; auto.
Qed.

End Loops.

(** ** Dictionaries *)

Lemma dict_get_nth {V : Type} (d : Dict.t V) (i : nat) (k : string) (v : V) :
  Dict.wf d -> nth_error d i = Some (k, v) -> Dict.get d k = Some v.
Proof.
  unfold Dict.wf, Dict.keys.
  revert i; induction d as [|[k' v'] d IH]; intros i W H.
  - destruct i; discriminate.
  - simpl in W. inversion W as [|? ? N W']; subst. simpl.
    destruct i as [|i]; simpl in H.
    + injection H as -> ->. now rewrite String.eqb_refl.
    + destruct (k' =? k) eqn:E.
      * apply String.eqb_eq in E. subst k'. exfalso. apply N.
        apply nth_error_In in H. now apply (in_map fst) in H.
      * now apply (IH i).
Qed.

(** ** The procedure builder *)

Section BuilderFacts.

Variable procedure : list (option instruction).
Variable data : option data_set.
Variable factory : instruction -> option record -> result Command.

Lemma add_command_resolves (ps : list Command) (p : instruction)
      (k : option string) :
  ProcedureBuilder._add_command_to_procedure_set data factory ps p k =
  (c <- resolve_with data factory k p ;; Ok (ps ++ [c])).
Proof. destruct k; reflexivity. Qed.

Lemma build_for_each_action (ps : list Command) (k : option string) :
  ProcedureBuilder._build_procedure_for_each_action procedure data factory ps k =
  (bs <- mapM (resolve_with data factory k) (live_instructions procedure) ;;
   Ok (ps ++ bs)).
Proof.
  unfold ProcedureBuilder._build_procedure_for_each_action.
  revert ps; induction procedure as [|[p|] l IH]; intros ps; simpl.
  - now rewrite app_nil_r.
  - rewrite add_command_resolves.
    destruct (resolve_with data factory k p) as [c|e]; simpl; [|reflexivity].
    rewrite IH.
    destruct (mapM (resolve_with data factory k) (live_instructions l)); simpl;
      [|reflexivity].
    now rewrite <- app_assoc.
  - apply IH.
Qed.

End BuilderFacts.

(** The whole build: one pass of the live instructions per key. *)
Lemma build_procedure_set_unfold (procedure : list (option instruction))
      (data : option data_set)
      (factory : instruction -> option record -> result Command) :
  ProcedureBuilder.build_procedure_set procedure data factory =
  match data with
  | None => mapM (resolve_with data factory None) (live_instructions procedure)
  | Some d =>
      bss <- mapM (fun k => mapM (resolve_with data factory (Some k))
                                 (live_instructions procedure))
                  (Dict.keys d) ;;
      Ok (List.concat bss)
  end.
Proof.
  unfold ProcedureBuilder.build_procedure_set,
    ProcedureBuilder._build_procedure_for_each_data_record.
  destruct data as [d|].
  - transitivity
      (foldM (fun ps k =>
                bs <- mapM (resolve_with (Some d) factory (Some k))
                           (live_instructions procedure) ;;
                Ok (ps ++ bs))
             (Dict.keys d) []).
    + generalize (@nil Command) as ps.
      induction (Dict.keys d) as [|k ks IH]; intros ps; simpl; [reflexivity|].
      rewrite build_for_each_action.
      destruct (mapM _ (live_instructions procedure)); simpl;
        [apply IH|reflexivity].
    + rewrite foldM_append_lists. reflexivity.
  - rewrite build_for_each_action. simpl. apply bind_ok.
Qed.


(** C6.  When the build returns a procedure set, it holds one action per
    bound record and live instruction, in record-major order: the action
    at position [i * (number of live instructions) + j] is the [j]-th
    live instruction resolved against the [i]-th record (or against no
    record when there is no table); [None] entries contribute nothing. *)
Theorem procedure_set_order (procedure : list (option instruction))
        (data : option data_set) (ps : list Command) :
  match data with Some d => Dict.wf d | None => True end ->
  ProcedureBuilder.build_procedure_set procedure data CommandFactory.__call__ = Ok ps ->
  let records := bound_records data in
  let live := live_instructions procedure in
  List.length ps = List.length records * List.length live /\
  forall i j r p,
    nth_error records i = Some r -> nth_error live j = Some p ->
    exists c, nth_error ps (i * List.length live + j) = Some c /\
              CommandFactory.__call__ p r = Ok c.
Proof.
  intros W. rewrite build_procedure_set_unfold. intros H records live.
  destruct data as [d|]; simpl in records.
  - destruct (mapM _ (Dict.keys d)) as [bss|e] eqn:M; simpl in H; [|discriminate].
    injection H as <-.
    assert (L : forall bs, In bs bss -> List.length bs = List.length live).
    { intros bs Hin. apply In_nth_error in Hin. destruct Hin as [i Hi].
      assert (Hk : exists k, nth_error (Dict.keys d) i = Some k).
      { apply mapM_length in M.
        destruct (nth_error (Dict.keys d) i) eqn:E; [now eexists|].
        apply nth_error_None in E.
        assert (i < List.length bss) by (apply nth_error_Some; congruence). lia. }
      destruct Hk as [k Hk].
      destruct (mapM_nth _ _ _ _ _ M Hk) as (bs' & Hb & Hm).
      rewrite Hi in Hb. injection Hb as <-. now apply mapM_length in Hm. }
    split.
    + rewrite (concat_length _ _ L). apply mapM_length in M. rewrite M.
      unfold records, Dict.keys, Dict.values. now rewrite !length_map.
    + intros i j r p Hr Hp.
      unfold records, Dict.values in Hr. rewrite map_map in Hr.
      destruct (nth_error d i) as [[k v]|] eqn:Hd.
      2:{ rewrite nth_error_map, Hd in Hr. discriminate. }
      rewrite nth_error_map, Hd in Hr. simpl in Hr. injection Hr as <-.
      assert (Hk : nth_error (Dict.keys d) i = Some k).
      { unfold Dict.keys. now rewrite nth_error_map, Hd. }
      destruct (mapM_nth _ _ _ _ _ M Hk) as (bs & Hb & Hm).
      destruct (mapM_nth _ _ _ _ _ Hm Hp) as (c & Hc & Hf).
      exists c. split.
      * rewrite (concat_nth _ _ _ _ _ L Hb); [exact Hc|].
        apply nth_error_Some. congruence.
      * unfold resolve_with, ProcedureBuilder.lookup_record in Hf.
        rewrite (dict_get_nth d i k v W Hd) in Hf. exact Hf.
  - split.
    + apply mapM_length in H. subst records live. simpl. lia.
    + intros i j r p Hr Hp. destruct i as [|[|i]]; simpl in Hr; try discriminate.
      injection Hr as <-. simpl.
      destruct (mapM_nth _ _ _ _ _ H Hp) as (c & Hc & Hf). now exists c.
Qed.

Lemma dict_get_key {V : Type} (d : Dict.t V) (k : string) :
  In k (Dict.keys d) -> exists v, Dict.get d k = Some v /\ In v (Dict.values d).
Proof.
  unfold Dict.keys, Dict.values.
  induction d as [|[k' v'] d IH]; simpl; [contradiction|].
  intros H. destruct (k' =? k) eqn:E.
  - exists v'. split; [reflexivity|now left].
  - apply String.eqb_neq in E. destruct H as [H|H]; [contradiction|].
    destruct (IH H) as (v & Hv & Hin). exists v. split; [exact Hv|now right].
Qed.

(** The build returns whenever every live instruction resolves against
    every bound record. *)
Lemma build_procedure_set_runs (procedure : list (option instruction))
      (data : option data_set) :
  (forall r p, In r (bound_records data) -> In p (live_instructions procedure) ->
               exists c, CommandFactory.__call__ p r = Ok c) ->
  exists ps,
    ProcedureBuilder.build_procedure_set procedure data CommandFactory.__call__ = Ok ps.
Proof.
  intros H. rewrite build_procedure_set_unfold. destruct data as [d|]; simpl in H.
  - destruct (mapM_total
                (fun k => mapM (resolve_with (Some d) CommandFactory.__call__ (Some k))
                               (live_instructions procedure))
                (Dict.keys d)) as [bss Hb].
    { intros k Hk. apply mapM_total. intros p Hp.
      destruct (dict_get_key d k Hk) as (v & Hv & Hin).
      unfold resolve_with, ProcedureBuilder.lookup_record. rewrite Hv. simpl.
      apply H; [|exact Hp]. apply in_map_iff. now exists v. }
    rewrite Hb. simpl. now eexists.
  - apply mapM_total. intros p Hp. apply H; [now left|exact Hp].
Qed.

(** Two records and three live instructions (and one comment line) give
    six actions, those of the first record before those of the second. *)
Lemma procedure_set_order_example :
  let procedure :=
    [Some [PStr "print"; PStr "hello"]; None;
     Some [PStr "input"; PStr "name"]; Some [PStr "pause"; PInt 1]] in
  let table : data_set :=
    [("1", [("name", "Alice")]); ("2", [("name", "Bob")])] in
  exists ps,
    ProcedureBuilder.build_procedure_set procedure (Some table)
                                         CommandFactory.__call__ = Ok ps /\
    List.length ps = 6 /\
    forall i j r p,
      nth_error (bound_records (Some table)) i = Some r ->
      nth_error (live_instructions procedure) j = Some p ->
      exists c, nth_error ps (i * 3 + j) = Some c /\
                CommandFactory.__call__ p r = Ok c.
Proof.
  intros procedure table. eexists. split; [reflexivity|].
  apply (procedure_set_order procedure (Some table)).
  - repeat constructor; simpl; intuition discriminate.
  - reflexivity.
Defined.

(** ** The data table loader *)

Lemma item_middle {A : Type} (pre post : list A) (x : A) :
  item (pre ++ x :: post) (List.length pre) = Ok x.
Proof.
  unfold item. rewrite nth_error_app2 by lia. now rewrite Nat.sub_diag.
Qed.

Lemma set_headers_loop (H : list (string)) (rows : list (list string))
      (dd : data_set) (ht w : nat) (post pre hs : list string) :
  H = pre ++ post ->
  foldM (fun self header =>
           first_row <- item (DataFromList.data_list self) 0 ;;
           h <- item first_row header ;;
           Ok (DataFromList.set_headers self (DataFromList.headers self ++ [h])))
        (seq (List.length pre) (List.length post))
        (DataFromList.Build (H :: rows) hs dd ht w) =
  Ok (DataFromList.Build (H :: rows) (hs ++ post) dd ht w).
Proof.
  revert pre hs; induction post as [|x post IH]; intros pre hs E; simpl.
  - now rewrite app_nil_r.
  - subst H.
    replace (hs ++ x :: post) with ((hs ++ [x]) ++ post)
      by (now rewrite <- app_assoc).
    rewrite <- (IH (pre ++ [x]) (hs ++ [x])) by (now rewrite <- app_assoc).
    rewrite length_app, Nat.add_comm. simpl. rewrite item_middle. reflexivity.
Qed.

Lemma read_columns_loop (H R : list string) (all : list (list string))
      (row : nat) (dd : data_set) (ht w : nat)
      (postH postR preH preR : list string) (temp : record) :
  H = preH ++ postH -> R = preR ++ postR ->
  List.length preH = List.length preR -> List.length postH = List.length postR ->
  nth_error all row = Some R ->
  foldM (fun temp_dict column =>
           header <- item (DataFromList.headers
                             (DataFromList.Build all H dd ht w)) column ;;
           the_row <- item (DataFromList.data_list
                              (DataFromList.Build all H dd ht w)) row ;;
           value <- item the_row column ;;
           Ok (Dict.set temp_dict header value))
        (seq (List.length preH) (List.length postH)) temp =
  Ok (fold_left (fun temp_dict hv => Dict.set temp_dict (fst hv) (snd hv))
                (combine postH postR) temp).
Proof.
  intros EH ER Lpre Lpost Hrow. subst H R.
  revert postR preH preR temp Lpre Lpost Hrow.
  induction postH as [|h postH IH]; intros postR preH preR temp Lpre Lpost Hrow.
  - reflexivity.
  - destruct postR as [|v postR]; [discriminate|]. simpl in Lpost.
    cbn [List.length seq foldM DataFromList.headers DataFromList.data_list].
    rewrite item_middle. cbn [bind]. unfold item at 1. rewrite Hrow. cbn [of_option bind].
    rewrite Lpre, item_middle. cbn [bind combine fold_left fst snd].
    specialize (IH postR (preH ++ [h]) (preR ++ [v]) (Dict.set temp h v)).
    rewrite !length_app, Nat.add_comm in IH. simpl in IH.
    rewrite <- !app_assoc in IH. simpl in IH.
    rewrite <- Lpre. apply IH; [lia|lia|exact Hrow].
Qed.

Lemma read_row (H R : list string) (all : list (list string)) (row : nat)
      (dd : data_set) (ht : nat) :
  nth_error all row = Some R -> 1 <= List.length H ->
  List.length R = List.length H ->
  DataFromList._read_all_column_values_except_the_keys
    (DataFromList.Build all H dd ht (List.length H)) row =
  Ok (DataFromList.Build all H (Dict.set dd (hd "" R) (record_of H R)) ht
                         (List.length H)).
Proof.
  intros Hrow HH HR.
  destruct H as [|h0 Ht]; [simpl in HH; lia|].
  destruct R as [|r0 Rt]; [discriminate|].
  assert (X := read_columns_loop (h0 :: Ht) (r0 :: Rt) all row dd ht
                                 (List.length (h0 :: Ht)) Ht Rt [h0] [r0] []
                                 eq_refl eq_refl eq_refl).
  unfold DataFromList._read_all_column_values_except_the_keys.
  cbn [DataFromList.data_list DataFromList.width DataFromList.data_dictionary
       DataFromList.headers List.length] in X |- *.
  replace (S (List.length Ht) - 1) with (List.length Ht) by lia.
  rewrite X; [|simpl in HR; lia|exact Hrow]. clear X.
  unfold item at 1. rewrite Hrow. reflexivity.
Qed.

Lemma read_rows_loop (H : list string) (ht : nat)
      (post pre : list (list string)) (dd : data_set) :
  1 <= List.length H ->
  (forall R, In R post -> List.length R = List.length H) ->
  foldM DataFromList._read_all_column_values_except_the_keys
        (seq (S (List.length pre)) (List.length post))
        (DataFromList.Build (H :: pre ++ post) H dd ht (List.length H)) =
  Ok (DataFromList.Build
        (H :: pre ++ post) H
        (fold_left (fun d R => Dict.set d (hd "" R) (record_of H R)) post dd)
        ht (List.length H)).
Proof.
  intros HH. revert pre dd; induction post as [|R post IH]; intros pre dd HR.
  - reflexivity.
  - cbn [List.length seq foldM].
    rewrite (read_row H R); [|simpl; rewrite nth_error_app2 by lia;
                              now rewrite Nat.sub_diag|exact HH|apply HR; now left].
    cbn [bind fold_left].
    specialize (IH (pre ++ [R]) (Dict.set dd (hd "" R) (record_of H R))).
    rewrite length_app, Nat.add_comm, <- app_assoc in IH. simpl in IH.
    apply IH. intros; apply HR; now right.
Qed.

(** On a table whose rows have the arity of a non-empty header row, the
    loader returns, and what it returns is [table_of]. *)
Lemma load_table_closed_form (H : list string) (rows : list (list string)) :
  1 <= List.length H ->
  (forall R, In R rows -> List.length R = List.length H) ->
  load_table (H :: rows) = Ok (table_of H rows).
Proof.
  intros HH HR. unfold load_table, DataFromList.__init__.
  change (item (H :: rows) 0) with (Ok H). cbn [bind].
  assert (X := set_headers_loop H rows [] (S (List.length rows)) (List.length H)
                                H [] [] eq_refl).
  assert (Y := read_rows_loop H (S (List.length rows)) rows [] [] HH HR).
  unfold DataFromList.return_data_set, DataFromList._set_headers,
    DataFromList._read_all_table_rows_except_headers.
  cbn [DataFromList.width List.length app] in X, Y |- *.
  rewrite X. cbn [bind DataFromList.height].
  replace (S (List.length rows) - 1) with (List.length rows) by lia.
  rewrite Y. reflexivity.
Qed.

(** ** Reading a dictionary built by assignments *)

Lemma get_set_same {V : Type} (d : Dict.t V) (k : string) (v : V) :
  Dict.get (Dict.set d k v) k = Some v.
Proof.
  induction d as [|[k' v'] d IH]; simpl.
  - now rewrite String.eqb_refl.
  - destruct (k' =? k) eqn:E; simpl.
    + now rewrite String.eqb_refl.
    + now rewrite E.
Qed.

Lemma get_set_other {V : Type} (d : Dict.t V) (k k' : string) (v : V) :
  k' <> k -> Dict.get (Dict.set d k' v) k = Dict.get d k.
Proof.
  intros N. apply String.eqb_neq in N.
  induction d as [|[k0 v0] d IH]; simpl.
  - now rewrite N.
  - destruct (k0 =? k') eqn:E; simpl.
    + apply String.eqb_eq in E. subst k0. now rewrite N.
    + destruct (k0 =? k); [reflexivity|exact IH].
Qed.

Section Assignments.

Context {A V : Type}.
Variable key : A -> string.
Variable val : A -> V.

Let assign (d : Dict.t V) (x : A) : Dict.t V := Dict.set d (key x) (val x).

Lemma get_assign_absent (l : list A) (d : Dict.t V) (k : string) :
  (forall x, In x l -> key x <> k) ->
  Dict.get (fold_left assign l d) k = Dict.get d k.
Proof.
  revert d; induction l as [|x l IH]; intros d H; simpl; [reflexivity|].
  rewrite IH by (intros; apply H; now right).
  apply get_set_other. apply H. now left.
Qed.

(** The last assignment to a key is the one that is read. *)
Lemma get_assign_last (l : list A) (d : Dict.t V) (i : nat) (a : A) :
  nth_error l i = Some a ->
  (forall i' a', i < i' -> nth_error l i' = Some a' -> key a' <> key a) ->
  Dict.get (fold_left assign l d) (key a) = Some (val a).
Proof.
  revert d i; induction l as [|x l IH]; intros d i Hi Hlater.
  - destruct i; discriminate.
  - destruct i as [|i]; simpl in *.
    + injection Hi as ->. rewrite get_assign_absent.
      * apply get_set_same.
      * intros y Hy. apply In_nth_error in Hy. destruct Hy as [n Hn].
        apply (Hlater (S n)); [lia|exact Hn].
    + apply (IH _ i Hi). intros i' a' Lt Ha'.
      apply (Hlater (S i')); [lia|exact Ha'].
Qed.

End Assignments.

Lemma nth_error_combine {A B : Type} (l1 : list A) (l2 : list B) (n : nat)
      (a : A) (b : B) :
  nth_error (combine l1 l2) n = Some (a, b) <->
  nth_error l1 n = Some a /\ nth_error l2 n = Some b.
Proof.
  revert l2 n; induction l1 as [|x l1 IH]; intros l2 n.
  - simpl. destruct n; split; intros H; try discriminate; destruct H; discriminate.
  - destruct l2 as [|y l2]; simpl.
    + destruct n; split; intros H; try discriminate; destruct H; discriminate.
    + destruct n as [|n]; simpl.
      * split; [intros H; injection H as -> ->; now split|].
        intros [H1 H2]; injection H1 as ->; injection H2 as ->; reflexivity.
      * apply IH.
Qed.

Lemma nth_error_tl {A : Type} (l : list A) (n : nat) :
  nth_error (tl l) n = nth_error l (S n).
Proof. destruct l; [now destruct n|reflexivity]. Qed.

Lemma in_keys_set {V : Type} (d : Dict.t V) (k x : string) (v : V) :
  In x (Dict.keys (Dict.set d k v)) -> x = k \/ In x (Dict.keys d).
Proof.
  unfold Dict.keys. induction d as [|[k' v'] d IH]; simpl.
  - intros [<-|[]]. now left.
  - destruct (k' =? k) eqn:E; simpl.
    + apply String.eqb_eq in E. subst k'. intros [<-|H]; [now left|right; now right].
    + intros [<-|H]; [right; now left|].
      destruct (IH H) as [->|H']; [now left|right; now right].
Qed.

Lemma set_wf {V : Type} (d : Dict.t V) (k : string) (v : V) :
  Dict.wf d -> Dict.wf (Dict.set d k v).
Proof.
  unfold Dict.wf. induction d as [|[k' v'] d IH]; simpl; intros W.
  - constructor; [intros []|constructor].
  - inversion W as [|? ? N W']; subst.
    destruct (k' =? k) eqn:E; simpl.
    + apply String.eqb_eq in E. subst k'. now constructor.
    + apply String.eqb_neq in E. constructor; [|now apply IH].
      intros Hin. apply in_keys_set in Hin. destruct Hin as [->|Hin]; auto.
Qed.

(** The table the loader returns has no repeated key. *)
Lemma table_of_wf (H : list string) (rows : list (list string)) :
  Dict.wf (table_of H rows).
Proof.
  unfold table_of.
  assert (G : forall (d : data_set), Dict.wf d ->
              Dict.wf (fold_left (fun d R => Dict.set d (hd "" R) (record_of H R))
                                 rows d)).
  { induction rows as [|R rows IH]; intros d W; simpl; [exact W|].
    apply IH. now apply set_wf. }
  apply G. constructor.
Qed.

(** C9, amended.  For a header row [H] of arity [N >= 1] and rows of the
    same arity, the loader returns a mapping in which every row [Ri] whose
    key (its column 0) is not repeated by a later row is found under that
    key, with a record that maps [H[j]] to [Ri[j]] for every column [j] of
    [1..N-1] whose header is not repeated by a later column. *)
Theorem table_keyed_by_first_column (H : list string) (rows : list (list string)) :
  1 <= List.length H ->
  (forall R, In R rows -> List.length R = List.length H) ->
  exists d,
    load_table (H :: rows) = Ok d /\
    forall i Ri key,
      nth_error rows i = Some Ri -> nth_error Ri 0 = Some key ->
      (forall i' R', i < i' -> nth_error rows i' = Some R' ->
                     nth_error R' 0 <> Some key) ->
      exists rec,
        Dict.get d key = Some rec /\
        forall j h v,
          1 <= j < List.length H ->
          nth_error H j = Some h -> nth_error Ri j = Some v ->
          (forall j', j < j' < List.length H -> nth_error H j' <> Some h) ->
          Dict.get rec h = Some v.
Proof.
  intros HH HR. exists (table_of H rows).
  split; [now apply load_table_closed_form|].
  intros i Ri key Hi Hkey Hlater.
  exists (record_of H Ri). split.
  - assert (K : hd "" Ri = key) by (destruct Ri; [discriminate|now injection Hkey]).
    rewrite <- K.
    apply (get_assign_last (hd "") (record_of H) rows [] i Ri Hi).
    intros i' R' Lt HR'. rewrite K. intros E.
    apply (Hlater i' R' Lt HR').
    assert (L : List.length R' = List.length H)
      by (apply HR; eapply nth_error_In; exact HR').
    destruct R' as [|r R']; [simpl in L; lia|]. simpl in *. now rewrite E.
  - intros j h v [Hj1 Hj2] Hh Hv Hcols.
    destruct j as [|j]; [lia|].
    apply (get_assign_last fst snd (combine (tl H) (tl Ri)) [] j (h, v)).
    + apply nth_error_combine. now rewrite !nth_error_tl.
    + intros j' [h' v'] Lt Hc. simpl.
      apply nth_error_combine in Hc. destruct Hc as [Hh' _].
      rewrite nth_error_tl in Hh'. intros ->.
      apply (Hcols (S j')); [|exact Hh'].
      split; [lia|]. apply nth_error_Some. congruence.
Qed.

(** The example of the specification: headers [id, name] and the row
    [1, Alice] give, under the key [1], a record with [name] = [Alice]. *)
Lemma table_keyed_example :
  exists d,
    load_table [["id"; "name"]; ["1"; "Alice"]] = Ok d /\
    exists rec, Dict.get d "1" = Some rec /\ Dict.get rec "name" = Some "Alice".
Proof.
  destruct (table_keyed_by_first_column ["id"; "name"] [["1"; "Alice"]])
    as (d & Hd & Hall).
  - simpl; lia.
  - intros R [<-|[]]. reflexivity.
  - exists d. split; [exact Hd|].
    destruct (Hall 0 ["1"; "Alice"] "1" eq_refl eq_refl) as (rec & Hrec & Hcols).
    + intros [|i'] R' Lt HR'; [lia|]. destruct i'; discriminate.
    + exists rec. split; [exact Hrec|].
      apply (Hcols 1 "name" "Alice"); [simpl; lia|reflexivity|reflexivity|].
      intros j' [L1 L2]. simpl in L2. lia.
Defined.

(** C9 as worded fails when a key or a header is repeated: the later row
    and the later column overwrite the earlier ones.  It also fails on rows
    of arity 0, which have no column 0 to read the key from. *)
Lemma table_duplicates_overwrite :
  load_table [["id"; "name"]; ["1"; "Alice"]; ["1"; "Bob"]] =
    Ok [("1", [("name", "Bob")])] /\
  ~ keyed_by_first_column ["id"; "name"] [["1"; "Alice"]; ["1"; "Bob"]] /\
  load_table [["id"; "name"; "name"]; ["1"; "Alice"; "Bob"]] =
    Ok [("1", [("name", "Bob")])] /\
  ~ keyed_by_first_column ["id"; "name"; "name"] [["1"; "Alice"; "Bob"]] /\
  load_table [[]; []] = Raise IndexError /\
  ~ keyed_by_first_column [] [[]].
Proof.
  split; [reflexivity|]. split; [|split; [reflexivity|split; [|split; [reflexivity|]]]].
  - intros (d & Hd & Hall).
    change (load_table [["id"; "name"]; ["1"; "Alice"]; ["1"; "Bob"]])
      with (@Ok data_set [("1", [("name", "Bob")])]) in Hd.
    injection Hd as <-.
    destruct (Hall ["1"; "Alice"]) as (key & rec & Hk & Hrec & Hcols); [now left|].
    injection Hk as <-. simpl in Hrec. injection Hrec as <-.
    specialize (Hcols 1 "name" "Alice"). simpl in Hcols.
    assert (X : Some "Bob" = Some "Alice") by (apply Hcols; [lia|reflexivity|reflexivity]).
    discriminate X.
  - intros (d & Hd & Hall).
    change (load_table [["id"; "name"; "name"]; ["1"; "Alice"; "Bob"]])
      with (@Ok data_set [("1", [("name", "Bob")])]) in Hd.
    injection Hd as <-.
    destruct (Hall ["1"; "Alice"; "Bob"]) as (key & rec & Hk & Hrec & Hcols);
      [now left|].
    injection Hk as <-. simpl in Hrec. injection Hrec as <-.
    specialize (Hcols 1 "name" "Alice"). simpl in Hcols.
    assert (X : Some "Bob" = Some "Alice") by (apply Hcols; [lia|reflexivity|reflexivity]).
    discriminate X.
  - intros (d & Hd & _). discriminate Hd.
Qed.

(** * Further properties of the code *)

(** X1 at the attribute [w12.7]: the width is 12. *)
Lemma parsed_attribute_nonneg_example : (0 <= 12)%Z.
Proof.
  exact (parsed_attribute_nonneg "w12.7" (PFloat (decimal (127%Z, 1))) 12
                                 eq_refl eq_refl).
Defined.

(** ** Lines that are no-ops *)

Lemma new_command_not_none (nl : instruction) (line : string) (m : bool) :
  (r <- BaseInterpreter._new_command nl line m ;; Ok (Some r)) <> Ok None.
Proof.
  destruct (BaseInterpreter._new_command nl line m); simpl; discriminate.
Qed.

(** X2.  A line parses to the no-op [None] exactly when its trimmed,
    lowercased form has at most 5 characters or does not start with one of
    the four keywords; a keyword line never parses to [None] (it yields an
    instruction or raises). *)
Theorem noop_lines (line : string) :
  let l := Str.strip (Str.lower line) in
  parse_line line = Ok None <->
  (length l <= 5 \/ is_keyword (Str.take 5 l) = false).
Proof.
  intros l. unfold parse_line, InterpreterFactory.__call__,
    InterpreterFactory._set_line_characteristics, is_keyword.
  fold l. destruct (5 <? length l)%nat eqn:L.
  - apply Nat.ltb_lt in L.
    destruct (first_of_long l) as [c Hc]; [lia|]. rewrite Hc. cbn [bind fst snd].
    destruct (Str.take 5 l =? "print") eqn:E1.
    { cbn [interpret orb]. unfold PrintInterpreter.interpret. split.
      - intros H. now apply new_command_not_none in H.
      - intros [H|H]; [lia|discriminate]. }
    destruct (Str.take 5 l =? "press") eqn:E2.
    { cbn [interpret orb]. unfold PressInterpreter.interpret. split.
      - intros H. now apply new_command_not_none in H.
      - intros [H|H]; [lia|discriminate]. }
    destruct (Str.take 5 l =? "pause") eqn:E3.
    { cbn [interpret orb]. unfold PauseInterpreter.interpret. split.
      - intros H. exfalso. revert H.
        destruct (BaseInterpreter._remove_parenthesis _) as [p|e]; cbn [bind];
          [|discriminate].
        destruct (Str.strip p =? ""); [discriminate|].
        destruct (BaseInterpreter.clean_number _); cbn [bind]; discriminate.
      - intros [H|H]; [lia|discriminate]. }
    destruct (Str.take 5 l =? "input") eqn:E4.
    { cbn [interpret orb]. unfold InputInterpreter.interpret. split.
      - intros H. now apply new_command_not_none in H.
      - intros [H|H]; [lia|discriminate]. }
    cbn [orb]. destruct (String c "" =? "#"); cbn [interpret];
      (split; [intros _; now right|reflexivity]).
  - apply Nat.ltb_ge in L. cbn [bind fst snd interpret String.eqb].
    split; [intros _; now left|reflexivity].
Qed.

(** ** Parentheses and quotes *)

Lemma rstrip_closed (s : string) (c : ascii) :
  Str.isspace c = false ->
  Str.rstrip (s ++ String c "") = (s ++ String c "")%string.
Proof.
  intros Hc. induction s as [|d s IH]; simpl.
  - now rewrite Hc.
  - rewrite IH. destruct (s ++ String c "")%string eqn:E.
    + destruct s; discriminate.
    + now rewrite andb_false_r.
Qed.

Lemma mem_last (s : string) (c : ascii) :
  Str.mem c (s ++ String c "") = true.
Proof.
  induction s as [|d s IH]; simpl.
  - now rewrite Ascii.eqb_refl.
  - rewrite IH. apply orb_true_r.
Qed.

Lemma last_last (s : string) (c : ascii) :
  Str.last (s ++ String c "") = Ok c.
Proof.
  induction s as [|d s IH]; simpl; [reflexivity|].
  rewrite IH. destruct (s ++ String c "")%string eqn:E; [|reflexivity].
  destruct s; discriminate.
Qed.

Lemma drop_last_last (s : string) (c : ascii) :
  Str.drop_last (s ++ String c "") = s.
Proof.
  induction s as [|d s IH]; simpl; [reflexivity|].
  rewrite IH. destruct (s ++ String c "")%string eqn:E; [|reflexivity].
  destruct s; discriminate.
Qed.

Lemma mem_lstrip (c : ascii) (s : string) :
  Str.mem c s = false -> Str.mem c (Str.lstrip s) = false.
Proof.
  induction s as [|d s IH]; simpl; [reflexivity|].
  intros H. apply orb_false_iff in H. destruct H as [H1 H2].
  destruct (Str.isspace d); [now apply IH|]. simpl. now rewrite H1, H2.
Qed.

Lemma mem_rstrip (c : ascii) (s : string) :
  Str.mem c s = false -> Str.mem c (Str.rstrip s) = false.
Proof.
  induction s as [|d s IH]; simpl; [reflexivity|].
  intros H. apply orb_false_iff in H. destruct H as [H1 H2].
  destruct (Str.isspace d && (Str.rstrip s =? "")); [reflexivity|].
  simpl. now rewrite H1, IH.
Qed.

(** X3.  [_remove_parenthesis] undoes one layer of wrapping exactly: for
    every text [s], unwrapping [(s)] gives [s], whatever [s] holds (blanks
    and further parentheses included); a line with no parenthesis at all
    is only trimmed. *)
Theorem remove_parenthesis_unwraps :
  (forall s, BaseInterpreter._remove_parenthesis ("(" ++ s ++ ")") = Ok s) /\
  (forall line,
     Str.mem "(" line = false -> Str.mem ")" line = false ->
     BaseInterpreter._remove_parenthesis line = Ok (Str.strip line)).
Proof.
  split.
  - intros s. unfold BaseInterpreter._remove_parenthesis.
    assert (E : Str.strip ("(" ++ s ++ ")") = String "(" (s ++ ")")).
    { unfold Str.strip. cbn [append Str.lstrip]. 
      change (Str.isspace "(") with false. cbn iota.
      cbn [Str.rstrip]. rewrite (rstrip_closed s ")" eq_refl).
      change (Str.isspace "(") with false. reflexivity. }
    rewrite E. cbn [Str.mem Str.first bind Str.drop].
    rewrite Ascii.eqb_refl. cbn [orb bind].
    rewrite mem_last, last_last. cbn [bind]. rewrite Ascii.eqb_refl.
    now rewrite drop_last_last.
  - intros line Ho Hc. unfold BaseInterpreter._remove_parenthesis.
    assert (Ho' : Str.mem "(" (Str.strip line) = false)
      by (now apply mem_rstrip, mem_lstrip).
    assert (Hc' : Str.mem ")" (Str.strip line) = false)
      by (now apply mem_rstrip, mem_lstrip).
    rewrite Ho'. cbn [bind]. now rewrite Hc'.
Qed.

Lemma mem_remove (c : ascii) (s : string) : Str.mem c (Str.remove c s) = false.
Proof.
  induction s as [|d s IH]; simpl; [reflexivity|].
  destruct (c =? d)%char eqn:E; [exact IH|]. simpl. now rewrite E, IH.
Qed.

(** X4.  When [_remove_quotes] returns, either the trimmed text did not
    start with a quote and the result is the trimmed text, or it started
    with a quote character [q] and the result is the whole text with every
    [q] removed: no [q] is left, but blanks around the text are kept. *)
Theorem remove_quotes_result (text r : string) :
  BaseInterpreter._remove_quotes text = Ok r ->
  exists q,
    Str.first (Str.strip text) = Ok q /\
    if (q =? dquote)%char || (q =? "'")%char
    then r = Str.remove q text /\ Str.mem q r = false
    else r = Str.strip text.
Proof.
  unfold BaseInterpreter._remove_quotes.
  destruct (Str.first (Str.strip text)) as [q|e]; cbn [bind]; [|discriminate].
  intros H. exists q. split; [reflexivity|].
  destruct ((q =? dquote)%char || (q =? "'")%char).
  - injection H as <-. cbn. split; [reflexivity|apply mem_remove].
  - now injection H as <-.
Qed.

(** X4 at a quoted text with an inner quote and a trailing blank. *)
Lemma remove_quotes_example :
  exists q,
    Str.first (Str.strip "'it's' ") = Ok q /\
    if (q =? dquote)%char || (q =? "'")%char
    then "its " = Str.remove q "'it's' " /\ Str.mem q "its " = false
    else "its " = Str.strip "'it's' ".
Proof. exact (remove_quotes_result "'it's' " "its " eq_refl). Defined.

(** ** What [_new_command] returns and when it raises *)

Lemma split_from_nonempty (sep : string) (s : string) (skip : nat) (cur : string) :
  Str.split_from sep skip cur s <> [].
Proof.
  revert skip cur; induction s as [|c s IH]; intros skip cur;
    cbn [Str.split_from].
  - discriminate.
  - destruct skip; [|apply IH].
    destruct (prefix sep (String c s)); [discriminate|apply IH].
Qed.

Lemma split_cons (sep s : string) :
  exists first rest, Str.split sep s = first :: rest.
Proof.
  unfold Str.split. pose proof (split_from_nonempty sep s 0 "") as H.
  destruct (Str.split_from sep 0 "" s) as [|x r]; [contradiction|]. now exists x, r.
Qed.




(** [_new_command] in terms of the pieces of the line. *)
Lemma new_command_unfold (nl : instruction) (line : string) (m : bool) :
  BaseInterpreter._new_command nl line m =
  (action <- BaseInterpreter._remove_quotes (action_part line) ;;
   let nl' := nl ++ [if m then PList (Str.split " + " action) else PStr action] in
   match attribute_part line with
   | None => Ok nl'
   | Some a =>
       v <- BaseInterpreter.clean_number a ;;
       Ok match v with PNone => nl' | _ => nl' ++ [v] end
   end).
Proof.
  unfold BaseInterpreter._new_command, action_part, attribute_part, command_contents.
  destruct (remove_parenthesis_total line) as [l ->]. cbn [bind].
  destruct (split_cons "," l) as (first & rest & ->).
  cbn [item nth_error of_option bind hd].
  destruct (BaseInterpreter._remove_quotes first) as [action|e]; cbn [bind];
    [|reflexivity].
  destruct rest as [|a rest];
    cbn [List.length Nat.ltb Nat.leb item nth_error of_option bind].
  - now destruct m.
  - destruct (BaseInterpreter.clean_number a) as [v|e]; cbn [bind]; [|reflexivity].
    destruct m; destruct v; reflexivity.
Qed.



(** ** From a parsed line to its execution *)





Lemma typefield_execute (self : TypeField.t) :
  andthen (TypeField._print_value self) (TypeField._add_tab self) =
  Outcome (Typewrite (TypeField.value_to_print self) ::
           if TypeField.has_tab self then [Press (PStr "tab")] else [])
          None.
Proof.
  unfold TypeField._print_value, TypeField._add_tab.
  now destruct (TypeField.has_tab self).
Qed.







(** ** Execution *)

Lemma times_skip (n : nat) : times n skip = skip.
Proof. induction n as [|n IH]; simpl; [reflexivity|]. now rewrite IH. Qed.

Lemma times_raised (n : nat) (body : outcome) (e : exn) :
  raised (times n body) = Some e -> raised body = Some e /\ 0 < n.
Proof.
  induction n as [|n IH]; simpl; [discriminate|].
  unfold andthen. destruct (raised body) as [e'|] eqn:R.
  - rewrite R. intros H. split; [exact H|lia].
  - simpl. intros H. destruct (IH H) as [X _]. discriminate X.
Qed.

(** X10.  Executing a command raises in one case only: a [PressCommand]
    whose keys are a list of exactly 4 names and whose count is positive,
    and the exception is then [IndexError].  Print, input, pause and
    unknown commands, single keys and chords of any other size never
    raise. *)
Theorem execute_raises_only_on_four_keys (c : Command) (e : exn) :
  raised (execute c) = Some e ->
  e = IndexError /\
  exists instruction data keys presses,
    c = PressCommand instruction data (PList keys) presses /\
    List.length keys = 4 /\ (0 < presses)%Z.
Proof.
  destruct c as [self|self|i d n|i d keys n|i d]; cbn [execute].
  - unfold InputCommand.execute. rewrite typefield_execute. discriminate.
  - unfold PrintCommand.execute. rewrite typefield_execute. discriminate.
  - unfold PauseCommand.execute, for_range. rewrite times_emit. discriminate.
  - unfold PressCommand.execute, for_range. intros H.
    apply times_raised in H. destruct H as [H Hn].
    assert (P : (0 < n)%Z) by lia.
    destruct keys as [s|z|q|l|]; try discriminate H.
    destruct l as [|k0 [|k1 [|k2 [|k3 [|k4 [|k5 l]]]]]]; try discriminate H.
    simpl in H. injection H as <-. split; [reflexivity|].
    now exists i, d, [k0; k1; k2; k3], n.
  - discriminate.
Qed.

(** X10 at the chord [ctrl + alt + shift + esc]. *)
Lemma execute_raises_example :
  IndexError = IndexError /\
  exists instruction data keys presses,
    PressCommand [] None (PList ["ctrl"; "alt"; "shift"; "esc"]) 1 =
    PressCommand instruction data (PList keys) presses /\
    List.length keys = 4 /\ (0 < presses)%Z.
Proof.
  exact (execute_raises_only_on_four_keys
           (PressCommand [] None (PList ["ctrl"; "alt"; "shift"; "esc"]) 1)
           IndexError eq_refl).
Defined.

(** X11.  A single key (anything that is not a list) is pressed once per
    repeat, and not at all for a count of zero or less.  A list of keys
    whose size is not 2, 3, 4 or 5 (one key, six keys, none) is dropped
    silently: nothing is pressed and nothing is raised. *)
Theorem press_single_and_odd_chords :
  (forall key n,
     (forall l, key <> PList l) ->
     PressCommand.execute key n = Outcome (repeat (Press key) (Z.to_nat n)) None) /\
  (forall keys n,
     List.length keys < 2 \/ 5 < List.length keys ->
     PressCommand.execute (PList keys) n = Outcome [] None) /\
  (forall key n, (n <= 0)%Z -> PressCommand.execute key n = Outcome [] None).
Proof.
  split; [|split].
  - intros key n H. unfold PressCommand.execute, for_range.
    rewrite <- times_emit. f_equal.
    destruct key; try reflexivity. exfalso. now apply (H l).
  - intros keys n H. unfold PressCommand.execute, for_range.
    replace (PressCommand.press_once (PList keys)) with skip.
    + apply times_skip.
    + destruct keys as [|k0 [|k1 [|k2 [|k3 [|k4 [|k5 l]]]]]];
        simpl in H; try lia; reflexivity.
  - intros key n H. unfold PressCommand.execute, for_range.
    replace (Z.to_nat n) with 0 by lia. reflexivity.
Qed.

Lemma andthen_assoc (a b c : outcome) :
  andthen (andthen a b) c = andthen a (andthen b c).
Proof.
  unfold andthen. destruct a as [ea [x|]]; simpl; [reflexivity|].
  destruct b as [eb [y|]]; simpl; [reflexivity|].
  now rewrite app_assoc.
Qed.

Lemma andthen_skip_l (a : outcome) : andthen skip a = a.
Proof. now destruct a. Qed.

Lemma commander_app (ps qs : list Command) :
  ProcedureCommander.execute (ps ++ qs) =
  andthen (ProcedureCommander.execute ps) (ProcedureCommander.execute qs).
Proof.
  unfold ProcedureCommander.execute.
  induction ps as [|p ps IH]; simpl.
  - now rewrite andthen_skip_l.
  - now rewrite IH, andthen_assoc.
Qed.

(** X12.  [ProcedureCommander] executes the commands in order.  When none
    raises, what is issued is the concatenation of what each issues.
    Otherwise the run stops at the first command that raises: what the
    commands before it and that command issued is kept, the commands
    after it are not executed, and its exception is the run's. *)
Theorem commander_runs_in_order (procedure_set : list Command) :
  match raised (ProcedureCommander.execute procedure_set) with
  | None =>
      (forall c, In c procedure_set -> raised (execute c) = None) /\
      emitted (ProcedureCommander.execute procedure_set) =
      flat_map (fun c => emitted (execute c)) procedure_set
  | Some e =>
      exists before c after,
        procedure_set = before ++ c :: after /\
        (forall b, In b before -> raised (execute b) = None) /\
        raised (execute c) = Some e /\
        emitted (ProcedureCommander.execute procedure_set) =
        flat_map (fun c => emitted (execute c)) (before ++ [c])
  end.
Proof.
  induction procedure_set as [|p ps IH].
  - simpl. split; [intros c []|reflexivity].
  - change (ProcedureCommander.execute (p :: ps))
      with (andthen (execute p) (ProcedureCommander.execute ps)).
    unfold andthen. destruct (raised (execute p)) as [e|] eqn:R.
    + rewrite R. exists [], p, ps. split; [reflexivity|].
      split; [intros b []|]. split; [exact R|].
      simpl. now rewrite app_nil_r.
    + cbn [raised emitted].
      destruct (raised (ProcedureCommander.execute ps)) as [e|].
      * destruct IH as (before & c & after & -> & Hb & Hc & He).
        exists (p :: before), c, after. split; [reflexivity|].
        split; [intros b [<-|Hin]; [exact R|now apply Hb]|].
        split; [exact Hc|]. simpl. now rewrite He.
      * destruct IH as [Hall He]. split.
        -- intros c [<-|Hin]; [exact R|now apply Hall].
        -- simpl. now rewrite He.
Qed.

(** X13.  The factory looks at the first element only.  An empty
    instruction raises [IndexError]; an instruction whose first element is
    none of the four keywords resolves, with or without a record, to
    [UnknownCommand], which executes to nothing. *)
Theorem factory_unknown_keyword :
  (forall data, CommandFactory.__call__ [] data = Raise IndexError) /\
  (forall head rest data,
     (forall k, is_keyword k = true -> head <> PStr k) ->
     CommandFactory.__call__ (head :: rest) data =
     Ok (UnknownCommand (head :: rest) data) /\
     execute (UnknownCommand (head :: rest) data) = Outcome [] None).
Proof.
  split; [reflexivity|].
  intros head rest data H. split; [|reflexivity].
  unfold CommandFactory.__call__. cbn [item nth_error of_option bind].
  assert (N : forall k, is_keyword k = true -> is_str head k = false).
  { intros k Hk. destruct head as [s| | | |]; try reflexivity. simpl.
    apply String.eqb_neq. intros ->. now apply (H k Hk). }
  rewrite (N "input" eq_refl), (N "press" eq_refl), (N "print" eq_refl),
    (N "pause" eq_refl).
  now destruct data.
Qed.

(** ** The data table loader, whatever the rows *)

Lemma item_beyond {A : Type} (l : list A) : item l (List.length l) = Raise IndexError.
Proof.
  unfold item. replace (nth_error l (List.length l)) with (@None A); [reflexivity|].
  symmetry. apply nth_error_None. lia.
Qed.

Lemma read_columns_any (H R : list string) (all : list (list string))
      (row : nat) (dd : data_set) (ht w : nat)
      (postH postR preH preR : list string) (temp : record) :
  H = preH ++ postH -> R = preR ++ postR ->
  List.length preH = List.length preR ->
  nth_error all row = Some R ->
  foldM (fun temp_dict column =>
           header <- item (DataFromList.headers
                             (DataFromList.Build all H dd ht w)) column ;;
           the_row <- item (DataFromList.data_list
                              (DataFromList.Build all H dd ht w)) row ;;
           value <- item the_row column ;;
           Ok (Dict.set temp_dict header value))
        (seq (List.length preH) (List.length postH)) temp =
  if (List.length postH <=? List.length postR)%nat
  then Ok (fold_left (fun temp_dict hv => Dict.set temp_dict (fst hv) (snd hv))
                     (combine postH postR) temp)
  else Raise IndexError.
Proof.
  intros EH ER Lpre Hrow. subst H R.
  revert postR preH preR temp Lpre Hrow.
  induction postH as [|h postH IH]; intros postR preH preR temp Lpre Hrow.
  - reflexivity.
  - cbn [List.length seq foldM DataFromList.headers DataFromList.data_list].
    rewrite item_middle. cbn [bind]. unfold item at 1. rewrite Hrow.
    cbn [of_option bind]. rewrite Lpre.
    destruct postR as [|v postR].
    + rewrite app_nil_r, item_beyond. reflexivity.
    + rewrite item_middle. cbn [bind combine fold_left fst snd].
      specialize (IH postR (preH ++ [h]) (preR ++ [v]) (Dict.set temp h v)).
      rewrite !length_app, Nat.add_comm in IH. simpl in IH.
      rewrite <- !app_assoc in IH. simpl in IH.
      rewrite <- Lpre. apply IH; [lia|exact Hrow].
Qed.

Lemma read_row_any (H R : list string) (all : list (list string)) (row : nat)
      (dd : data_set) (ht : nat) :
  nth_error all row = Some R ->
  DataFromList._read_all_column_values_except_the_keys
    (DataFromList.Build all H dd ht (List.length H)) row =
  if long_enough H R
  then Ok (DataFromList.Build all H (Dict.set dd (hd "" R) (record_of H R)) ht
                              (List.length H))
  else Raise IndexError.
Proof.
  intros Hrow. unfold long_enough, needed_arity.
  unfold DataFromList._read_all_column_values_except_the_keys.
  cbn [DataFromList.data_list DataFromList.width DataFromList.data_dictionary].
  unfold item at 1. rewrite Hrow. cbn [of_option bind].
  destruct R as [|r0 Rt].
  - cbn [item nth_error of_option bind]. now destruct (List.length H).
  - cbn [item nth_error of_option bind hd].
    destruct H as [|h0 Ht].
    + reflexivity.
    + assert (X := read_columns_any (h0 :: Ht) (r0 :: Rt) all row dd ht
                                    (List.length (h0 :: Ht)) Ht Rt [h0] [r0] []
                                    eq_refl eq_refl eq_refl Hrow).
      cbn [DataFromList.data_list DataFromList.headers List.length] in X |- *.
      replace (S (List.length Ht) - 1) with (List.length Ht) by lia.
      rewrite X. clear X.
      replace (Nat.max 1 (S (List.length Ht)) <=? S (List.length Rt))%nat
        with (List.length Ht <=? List.length Rt)%nat.
      * now destruct (List.length Ht <=? List.length Rt)%nat.
      * destruct (List.length Ht <=? List.length Rt)%nat eqn:E; symmetry.
        -- apply Nat.leb_le in E. apply Nat.leb_le. lia.
        -- apply Nat.leb_gt in E. apply Nat.leb_gt. lia.
Qed.

Lemma read_rows_any (H : list string) (ht : nat)
      (post pre : list (list string)) (dd : data_set) :
  foldM DataFromList._read_all_column_values_except_the_keys
        (seq (S (List.length pre)) (List.length post))
        (DataFromList.Build (H :: pre ++ post) H dd ht (List.length H)) =
  if forallb (long_enough H) post
  then Ok (DataFromList.Build
             (H :: pre ++ post) H
             (fold_left (fun d R => Dict.set d (hd "" R) (record_of H R)) post dd)
             ht (List.length H))
  else Raise IndexError.
Proof.
  revert pre dd; induction post as [|R post IH]; intros pre dd.
  - reflexivity.
  - cbn [List.length seq foldM forallb].
    rewrite (read_row_any H R)
      by (simpl; rewrite nth_error_app2 by lia; now rewrite Nat.sub_diag).
    destruct (long_enough H R); cbn [bind andb fold_left]; [|reflexivity].
    specialize (IH (pre ++ [R]) (Dict.set dd (hd "" R) (record_of H R))).
    rewrite length_app, Nat.add_comm, <- app_assoc in IH. simpl in IH.
    exact IH.
Qed.

(** The loader on a table with a header row, whatever the rows. *)
Lemma load_table_cons (H : list string) (rows : list (list string)) :
  load_table (H :: rows) =
  if forallb (long_enough H) rows then Ok (table_of H rows) else Raise IndexError.
Proof.
  unfold load_table, DataFromList.__init__.
  change (item (H :: rows) 0) with (Ok H). cbn [bind].
  assert (X := set_headers_loop H rows [] (S (List.length rows)) (List.length H)
                                H [] [] eq_refl).
  assert (Y := read_rows_any H (S (List.length rows)) rows [] []).
  unfold DataFromList.return_data_set, DataFromList._set_headers,
    DataFromList._read_all_table_rows_except_headers.
  cbn [DataFromList.width List.length app] in X, Y |- *.
  rewrite X. cbn [bind DataFromList.height].
  replace (S (List.length rows) - 1) with (List.length rows) by lia.
  rewrite Y. now destruct (forallb (long_enough H) rows).
Qed.

Lemma combine_firstn_right {A B : Type} (l : list A) (l' : list B) :
  combine l (firstn (List.length l) l') = combine l l'.
Proof.
  revert l'; induction l as [|a l IH]; intros l'; simpl; [reflexivity|].
  destruct l' as [|b l']; simpl; [reflexivity|]. now rewrite IH.
Qed.

Lemma record_of_firstn (H R : list string) :
  record_of H (firstn (needed_arity H) R) = record_of H R.
Proof.
  unfold record_of, needed_arity. destruct H as [|h0 Ht].
  - reflexivity.
  - replace (Nat.max 1 (List.length (h0 :: Ht))) with (S (List.length Ht))
      by (simpl; lia).
    destruct R as [|r0 Rt]; [reflexivity|].
    cbn [firstn tl]. now rewrite combine_firstn_right.
Qed.

Lemma table_of_firstn (H : list string) (rows : list (list string)) :
  (forall R, In R rows -> long_enough H R = true) ->
  table_of H (map (firstn (needed_arity H)) rows) = table_of H rows.
Proof.
  unfold table_of. generalize (@nil (string * record)) as d.
  induction rows as [|R rows IH]; intros d HR; simpl; [reflexivity|].
  rewrite record_of_firstn.
  assert (L : long_enough H R = true) by (apply HR; now left).
  replace (hd "" (firstn (needed_arity H) R)) with (hd "" R).
  - apply IH. intros; apply HR; now right.
  - unfold long_enough in L. apply Nat.leb_le in L.
    unfold needed_arity in *.
    destruct R as [|r0 Rt]; [cbn [List.length] in L; lia|].
    destruct (Nat.max 1 (List.length H)) eqn:M; [lia|reflexivity].
Qed.

(** X14.  [DataFromList] raises [IndexError] on an empty list.  Below a
    header row of [N] fields it needs [max(1, N)] fields in every row: it
    then returns, and the fields beyond those are ignored (the table is
    the one of the rows cut to that size); a single shorter row makes the
    whole load raise [IndexError].  A header row alone loads as the empty
    table. *)
Theorem load_table_arity :
  load_table [] = Raise IndexError /\
  (forall H, load_table [H] = Ok []) /\
  (forall H rows,
     (forall R, In R rows -> needed_arity H <= List.length R) ->
     load_table (H :: rows) = Ok (table_of H rows) /\
     load_table (H :: map (firstn (needed_arity H)) rows) = load_table (H :: rows)) /\
  (forall H rows R,
     In R rows -> List.length R < needed_arity H ->
     load_table (H :: rows) = Raise IndexError).
Proof.
  split; [reflexivity|]. split; [|split].
  - intros H. now rewrite load_table_cons.
  - intros H rows HR.
    assert (A : forall R, In R rows -> long_enough H R = true).
    { intros R Hin. apply Nat.leb_le. now apply HR. }
    assert (F : forallb (long_enough H) rows = true) by (now apply forallb_forall).
    assert (F' : forallb (long_enough H) (map (firstn (needed_arity H)) rows) = true).
    { apply forallb_forall. intros R' Hin. apply in_map_iff in Hin.
      destruct Hin as (R & <- & Hin). apply Nat.leb_le.
      rewrite length_firstn. specialize (HR R Hin). lia. }
    rewrite !load_table_cons, F, F'. split; [reflexivity|].
    now rewrite table_of_firstn.
  - intros H rows R Hin Hs. rewrite load_table_cons.
    destruct (forallb (long_enough H) rows) eqn:F; [|reflexivity].
    exfalso. rewrite forallb_forall in F. specialize (F R Hin).
    apply Nat.leb_le in F. lia.
Qed.

Lemma keys_set {V : Type} (d : Dict.t V) (k : string) (v : V) :
  Dict.keys (Dict.set d k v) =
  if existsb (String.eqb k) (Dict.keys d) then Dict.keys d else Dict.keys d ++ [k].
Proof.
  unfold Dict.keys. induction d as [|[k' v'] d IH]; simpl; [reflexivity|].
  rewrite (String.eqb_sym k k'). destruct (k' =? k) eqn:E; simpl.
  - apply String.eqb_eq in E. now subst k'.
  - rewrite IH. now destruct (existsb (String.eqb k) (map fst d)).
Qed.

Lemma keys_of_assignments {A V : Type} (key : A -> string) (val : A -> V)
      (l : list A) (d : Dict.t V) :
  Dict.keys (fold_left (fun d x => Dict.set d (key x) (val x)) l d) =
  fold_left (fun seen k => if existsb (String.eqb k) seen then seen else seen ++ [k])
            (map key l) (Dict.keys d).
Proof.
  revert d; induction l as [|x l IH]; intros d; simpl; [reflexivity|].
  now rewrite IH, keys_set.
Qed.

Lemma first_occurrences_length (l seen : list string) :
  List.length
    (fold_left (fun seen k => if existsb (String.eqb k) seen then seen else seen ++ [k])
               l seen) <= List.length seen + List.length l.
Proof.
  revert seen; induction l as [|k l IH]; intros seen; simpl; [lia|].
  destruct (existsb (String.eqb k) seen).
  - specialize (IH seen). lia.
  - specialize (IH (seen ++ [k])). rewrite length_app in IH. simpl in IH. lia.
Qed.

(** X15.  The table [DataFromList] returns holds each key once, in the
    order in which the keys first occur in column 0 of the rows: a row
    that repeats a key replaces the record and does not move it.  So there
    are at most as many records as rows. *)
Theorem load_table_keys (table : list (list string)) (d : data_set) :
  load_table table = Ok d ->
  Dict.wf d /\
  Dict.keys d = first_occurrences (map (hd "") (tl table)) /\
  List.length d <= List.length (tl table).
Proof.
  destruct table as [|H rows]; [discriminate|].
  rewrite load_table_cons. destruct (forallb (long_enough H) rows); [|discriminate].
  intros E; injection E as <-. cbn [tl].
  assert (K : Dict.keys (table_of H rows) = first_occurrences (map (hd "") rows)).
  { unfold table_of, first_occurrences.
    apply (keys_of_assignments (hd "") (record_of H) rows []). }
  split; [apply table_of_wf|]. split; [exact K|].
  replace (List.length (table_of H rows))
    with (List.length (Dict.keys (table_of H rows)))
    by (unfold Dict.keys; apply length_map).
  rewrite K. unfold first_occurrences.
  pose proof (first_occurrences_length (map (hd "") rows) []) as L.
  rewrite length_map in L. exact L.
Qed.

(** X15 at a table in which the key [1] comes back after the key [2]. *)
Lemma load_table_keys_example :
  Dict.wf [("1", [("name", "Carol")]); ("2", [("name", "Bob")])] /\
  Dict.keys [("1", [("name", "Carol")]); ("2", [("name", "Bob")])] =
  first_occurrences
    (map (hd "") (tl [["id"; "name"]; ["1"; "Alice"]; ["2"; "Bob"]; ["1"; "Carol"]])) /\
  List.length [("1", [("name", "Carol")]); ("2", [("name", "Bob")])] <=
  List.length (tl [["id"; "name"]; ["1"; "Alice"]; ["2"; "Bob"]; ["1"; "Carol"]]).
Proof.
  exact (load_table_keys
           [["id"; "name"]; ["1"; "Alice"]; ["2"; "Bob"]; ["1"; "Carol"]]
           [("1", [("name", "Carol")]); ("2", [("name", "Bob")])] eq_refl).
Defined.

(** ** Tables and procedures given as text *)

Lemma lstrip_head (s : string) :
  Str.lstrip s = "" \/
  exists c t, Str.lstrip s = String c t /\ Str.isspace c = false.
Proof.
  induction s as [|c s IH]; simpl; [now left|].
  destruct (Str.isspace c) eqn:E; [exact IH|]. right. now exists c, s.
Qed.





Lemma prefix_char (c d : ascii) (s : string) :
  prefix (String c "") (String d s) = (c =? d)%char.
Proof.
  simpl. destruct (ascii_dec c d) as [->|N].
  - rewrite Ascii.eqb_refl. now destruct s.
  - symmetry. now apply Ascii.eqb_neq.
Qed.

Lemma split_char_length (c : ascii) (s cur : string) :
  List.length (Str.split_from (String c "") 0 cur s) = S (count_char c s).
Proof.
  revert cur; induction s as [|d s IH]; intros cur; [reflexivity|].
  cbn [Str.split_from count_char]. rewrite prefix_char.
  destruct (c =? d)%char; cbn [List.length length Nat.sub].
  - now rewrite IH.
  - now rewrite IH.
Qed.

(** X17.  When [ProcedureFromText] returns, the procedure has one entry
    per line of the text, no-ops included: one more than the number of
    newline characters, the entry at each position being what that line
    parses to. *)
Theorem procedure_from_text_lines (text : string)
        (procedure : list (option instruction)) :
  ProcedureFromText.return_procedure text = Ok procedure ->
  List.length procedure = S (count_char (ascii_of_nat 10) text) /\
  forall j line,
    nth_error (Str.split newline text) j = Some line ->
    exists entry, nth_error procedure j = Some entry /\ parse_line line = Ok entry.
Proof.
  unfold ProcedureFromText.return_procedure. intros H. split.
  - rewrite (mapM_length _ _ _ H). apply split_char_length.
  - intros j line Hj. exact (mapM_nth _ _ _ _ _ H Hj).
Qed.

(** X17 at a text of three lines, the second one blank. *)
Lemma procedure_from_text_lines_example :
  List.length [Some [PStr "print"; PStr "a"]; None; Some [PStr "pause"; PInt 2]] =
  S (count_char (ascii_of_nat 10)
                ("print a" ++ newline ++ newline ++ "pause(2)")) /\
  forall j line,
    nth_error (Str.split newline ("print a" ++ newline ++ newline ++ "pause(2)")) j
    = Some line ->
    exists entry,
      nth_error [Some [PStr "print"; PStr "a"]; None; Some [PStr "pause"; PInt 2]] j
      = Some entry /\
      parse_line line = Ok entry.
Proof.
  exact (procedure_from_text_lines
           ("print a" ++ newline ++ newline ++ "pause(2)")
           [Some [PStr "print"; PStr "a"]; None; Some [PStr "pause"; PInt 2]]
           eq_refl).
Defined.

(** ** Input against print, and widths below zero *)

Lemma set_field_same (s1 s2 : TypeField.t) (v : pyval) (w : option Z) :
  TypeField.has_tab s1 = TypeField.has_tab s2 ->
  match TypeField._set_field s1 v w, TypeField._set_field s2 v w with
  | Ok a, Ok b =>
      TypeField.value_to_print a = TypeField.value_to_print b /\
      TypeField.has_tab a = TypeField.has_tab b
  | Raise e1, Raise e2 => e1 = e2
  | _, _ => False
  end.
Proof.
  intros T. unfold TypeField._set_field. destruct w as [n|]; [|now split].
  destruct (py_len v) as [len|e]; cbn [bind]; [|reflexivity].
  destruct (len <? n)%Z; [now split|].
  destruct (n <? len)%Z; [|now split].
  destruct (py_slice_to v n); cbn [bind]; [now split|reflexivity].
Qed.

Lemma set_length_same (s1 s2 : TypeField.t) (a1 b1 a2 b2 : pyval)
      (rest : instruction) :
  match TypeField._set_length s1 (a1 :: b1 :: rest),
        TypeField._set_length s2 (a2 :: b2 :: rest) with
  | Ok x, Ok y =>
      exists w, x = TypeField.set_instruction_length s1 w /\
                y = TypeField.set_instruction_length s2 w
  | Raise e1, Raise e2 => e1 = e2
  | _, _ => False
  end.
Proof.
  unfold TypeField._set_length. cbn [List.length Nat.eqb].
  destruct rest as [|x [|y rest]]; cbn [Nat.eqb item nth_error of_option bind].
  - now exists None.
  - destruct (py_int x); cbn [bind]; [now eexists|reflexivity].
  - now exists None.
Qed.

(** X18.  An [input] whose field holds the text [t] behaves as the [print]
    of [t] with the same attribute, whatever the attribute is: either both
    constructors raise the same exception, or both commands execute to the
    same keystrokes. *)
Theorem input_as_print (field t : string) (rest : instruction)
        (data : record) (data' : option record) :
  Dict.get data field = Some t ->
  match InputCommand.__init__ (PStr "input" :: PStr field :: rest) data,
        PrintCommand.__init__ (PStr "print" :: PStr t :: rest) data' with
  | Ok c1, Ok c2 => execute c1 = execute c2
  | Raise e1, Raise e2 => e1 = e2
  | _, _ => False
  end.
Proof.
  intros Hf. unfold InputCommand.__init__, PrintCommand.__init__,
    InputCommand.set_input__print_value, PrintCommand._set_input__print_value.
  cbn [item nth_error of_option bind record_get]. rewrite Hf. cbn [bind].
  match goal with
  | |- context [TypeField._set_length ?s1 (PStr "input" :: _)] =>
      match goal with
      | |- context [TypeField._set_length ?s2 (PStr "print" :: _)] =>
          pose proof (set_length_same s1 s2 (PStr "input") (PStr field)
                                      (PStr "print") (PStr t) rest) as L;
          destruct (TypeField._set_length s1 (PStr "input" :: PStr field :: rest))
            as [x|e1];
          destruct (TypeField._set_length s2 (PStr "print" :: PStr t :: rest))
            as [y|e2]
      end
  end; cbn [bind]; try contradiction; [|exact L].
  destruct L as (w & -> & ->).
  cbn [TypeField.input_value_to_print TypeField.instruction_length
       TypeField.set_instruction_length TypeField.set_input_value_to_print
       TypeField.__init__].
  match goal with
  | |- context [TypeField._set_field ?s1 (PStr t) w] =>
      match goal with
      | |- match _ with
           | Ok _ => match (self <- TypeField._set_field ?s2 _ _ ;; _) with _ => _ end
           | Raise _ => _
           end =>
          pose proof (set_field_same s1 s2 (PStr t) w eq_refl) as F;
          destruct (TypeField._set_field s1 (PStr t) w) as [a|e1];
          destruct (TypeField._set_field s2 (PStr t) w) as [b|e2]
      end
  end; cbn [bind]; try contradiction; [|exact F].
  destruct F as [V T]. unfold execute, InputCommand.execute, PrintCommand.execute.
  now rewrite !typefield_execute, V, T.
Qed.

(** X18 at a width of 3. *)
Lemma input_as_print_example :
  match InputCommand.__init__ [PStr "input"; PStr "name"; PInt 3]
                              [("name", "Alice")],
        PrintCommand.__init__ [PStr "print"; PStr "Alice"; PInt 3] None with
  | Ok c1, Ok c2 => execute c1 = execute c2
  | Raise e1, Raise e2 => e1 = e2
  | _, _ => False
  end.
Proof.
  exact (input_as_print "name" "Alice" [PInt 3] [("name", "Alice")] None eq_refl).
Defined.

(** X19.  A width below zero, which only a hand-built instruction list
    can carry, does not pad and does not fail: the text is typed without
    its last [-w] characters (nothing is left of a text that short), and
    no tab follows. *)
Theorem print_negative_width (t : string) (w : Z) (data : option record) :
  (w < 0)%Z ->
  exists c,
    PrintCommand.__init__ [PStr "print"; PStr t; PInt w] data = Ok c /\
    execute c =
    Outcome [Typewrite (PStr (Str.take (length t - Z.to_nat (- w)) t))] None.
Proof.
  intros Hw. unfold PrintCommand.__init__, PrintCommand._set_input__print_value,
    TypeField._set_length.
  cbn [item nth_error of_option bind List.length Nat.eqb py_int
       TypeField.input_value_to_print TypeField.instruction_length
       TypeField.set_instruction_length TypeField.set_input_value_to_print
       TypeField.__init__].
  unfold TypeField._set_field. cbn [py_len bind].
  replace (Z.of_nat (length t) <? w)%Z with false by (symmetry; apply Z.ltb_ge; lia).
  replace (w <? Z.of_nat (length t))%Z with true by (symmetry; apply Z.ltb_lt; lia).
  cbn [py_slice_to bind]. eexists. split; [reflexivity|].
  unfold execute, PrintCommand.execute. rewrite typefield_execute.
  cbn [TypeField.value_to_print TypeField.has_tab TypeField.set_value_to_print
       TypeField.set_instruction_length TypeField.set_input_value_to_print
       TypeField.__init__].
  unfold slice_stop.
  replace (w <? 0)%Z with true by (symmetry; apply Z.ltb_lt; lia).
  do 4 f_equal. f_equal. lia.
Qed.

(** X19 at [hello] and the width [-1]. *)
Lemma print_negative_width_example :
  exists c,
    PrintCommand.__init__ [PStr "print"; PStr "hello"; PInt (-1)] None = Ok c /\
    execute c = Outcome [Typewrite (PStr "hell")] None.
Proof. exact (print_negative_width "hello" (-1) None eq_refl). Defined.

(** ** [clean_number] reads the accumulation only *)

Lemma mem_app (c : ascii) (a b : string) :
  Str.mem c (a ++ b) = Str.mem c a || Str.mem c b.
Proof.
  induction a as [|d a IH]; simpl; [reflexivity|].
  now rewrite IH, orb_assoc.
Qed.

Lemma has_point_digits (s : string) : has_point (digits_of s) = false.
Proof.
  induction s as [|c s IH]; [reflexivity|]. cbn [digits_of].
  destruct (Str.isdigit c) eqn:E; [|exact IH].
  now rewrite has_point_cons, (isdigit_not_point c E), IH.
Qed.

Lemma until_point_digits (a b : string) :
  until_point (digits_of a ++ "." ++ b) = digits_of a.
Proof.
  induction a as [|c a IH]; simpl; [reflexivity|].
  destruct (Str.isdigit c) eqn:E; simpl; [|exact IH].
  rewrite (isdigit_not_point c E). f_equal. exact IH.
Qed.

Lemma accumulation_facts (s : string) :
  has_point (accumulation s) = has_point s /\
  accumulation (accumulation s) = accumulation s.
Proof.
  unfold accumulation at 1 3 4. destruct (has_point s) eqn:P.
  - assert (Q : has_point (digits_of (until_point s) ++ "." ++
                           digits_of (after_point s)) = true).
    { unfold has_point. rewrite mem_app. simpl. apply orb_true_r. }
    split; [exact Q|]. unfold accumulation. rewrite Q.
    now rewrite until_point_digits, after_point_digits, !digits_of_idem.
  - split; [apply has_point_digits|].
    unfold accumulation. now rewrite has_point_digits, digits_of_idem.
Qed.

(** X20.  [clean_number] depends on the accumulation only: it returns, or
    raises, the same on a string and on what is left of it once every
    character other than a digit or the first point is removed.  Two
    strings with the same accumulation give the same number. *)
Theorem clean_number_ignores_noise :
  (forall s, BaseInterpreter.clean_number (accumulation s) =
             BaseInterpreter.clean_number s) /\
  (forall s s', accumulation s = accumulation s' ->
                BaseInterpreter.clean_number s = BaseInterpreter.clean_number s').
Proof.
  assert (A : forall s, BaseInterpreter.clean_number (accumulation s) =
                        BaseInterpreter.clean_number s).
  { intros s. rewrite !clean_number_unfold. cbv zeta.
    destruct (accumulation_facts s) as [-> ->]. reflexivity. }
  split; [exact A|].
  intros s s' E. now rewrite <- (A s), <- (A s'), E.
Qed.

(** ** When the build returns *)

Lemma mapM_ok_all {A B : Type} (f : A -> result B) (l : list A) (bs : list B) :
  mapM f l = Ok bs -> forall a, In a l -> exists b, f a = Ok b.
Proof.
  intros H a Hin. apply In_nth_error in Hin. destruct Hin as [j Hj].
  destruct (mapM_nth f l bs j a H Hj) as (b & _ & Hb). now exists b.
Qed.

(** X21.  [ProcedureBuilder] adds no failure of its own: the build returns
    a procedure set exactly when every live instruction resolves against
    every bound record (against no record when there is no table).  In
    particular it always returns on a table with no record. *)
Theorem build_returns_iff (procedure : list (option instruction))
        (data : option data_set) :
  match data with Some d => Dict.wf d | None => True end ->
  (exists ps,
     ProcedureBuilder.build_procedure_set procedure data CommandFactory.__call__
     = Ok ps) <->
  (forall r p, In r (bound_records data) -> In p (live_instructions procedure) ->
               exists c, CommandFactory.__call__ p r = Ok c).
Proof.
  intros W. split; [|apply build_procedure_set_runs].
  intros [ps H] r p Hr Hp. rewrite build_procedure_set_unfold in H.
  destruct data as [d|]; simpl in Hr.
  - destruct (mapM _ (Dict.keys d)) as [bss|e] eqn:M; [|discriminate].
    apply in_map_iff in Hr. destruct Hr as (v & <- & Hv).
    unfold Dict.values in Hv. apply in_map_iff in Hv.
    destruct Hv as ([k v'] & E & Hin). simpl in E. subst v'.
    pose proof Hin as Hnth. apply In_nth_error in Hnth. destruct Hnth as [i Hi].
    assert (Hk : In k (Dict.keys d)).
    { unfold Dict.keys. apply in_map_iff. now exists (k, v). }
    destruct (mapM_ok_all _ _ _ M k Hk) as [bs Hbs].
    destruct (mapM_ok_all _ _ _ Hbs p Hp) as [c Hc].
    unfold resolve_with, ProcedureBuilder.lookup_record in Hc.
    rewrite (dict_get_nth d i k v W Hi) in Hc. now exists c.
  - destruct Hr as [<-|[]]. exact (mapM_ok_all _ _ _ H p Hp).
Qed.

(** X21 at a procedure with an [input] line and a table with no record. *)
Lemma build_returns_iff_example :
  (exists ps,
     ProcedureBuilder.build_procedure_set
       [Some [PStr "input"; PStr "age"; PInt 5]; None] (Some [])
       CommandFactory.__call__ = Ok ps) <->
  (forall r p,
     In r (bound_records (Some [])) ->
     In p (live_instructions [Some [PStr "input"; PStr "age"; PInt 5]; None]) ->
     exists c, CommandFactory.__call__ p r = Ok c).
Proof.
  exact (build_returns_iff [Some [PStr "input"; PStr "age"; PInt 5]; None]
                           (Some []) (NoDup_nil _)).
Defined.

(** ** A table as text and as a list *)

Lemma rev_append_twice (x a b : string) :
  Str.rev_append (Str.rev_append x a) b = Str.rev_append a (x ++ b).
Proof.
  revert a b; induction x as [|c x IH]; intros a b; simpl; [reflexivity|].
  rewrite IH. reflexivity.
Qed.

Lemma append_empty_r (x : string) : (x ++ "")%string = x.
Proof. induction x as [|c x IH]; simpl; [reflexivity|now rewrite IH]. Qed.

Lemma split_pass (c : ascii) (x s cur : string) :
  Str.mem c x = false ->
  Str.split_from (String c "") 0 cur (x ++ s) =
  Str.split_from (String c "") 0 (Str.rev_append x cur) s.
Proof.
  revert cur; induction x as [|a x IH]; intros cur H; [reflexivity|].
  simpl in H. apply orb_false_iff in H. destruct H as [Ha Hx].
  cbn [append Str.split_from]. rewrite prefix_char, Ha.
  now rewrite IH.
Qed.

Lemma split_join_char (c : ascii) (l : list string) :
  l <> [] -> (forall x, In x l -> Str.mem c x = false) ->
  Str.split (String c "") (String.concat (String c "") l) = l.
Proof.
  unfold Str.split. induction l as [|x l IH]; intros N H; [contradiction|].
  assert (Hx : Str.mem c x = false) by (apply H; now left).
  destruct l as [|y l].
  - cbn [String.concat]. rewrite <- (append_empty_r x) at 1.
    rewrite split_pass by exact Hx. cbn [Str.split_from].
    now rewrite rev_append_twice, append_empty_r.
  - change (String.concat (String c "") (x :: y :: l))
      with (x ++ String c (String.concat (String c "") (y :: l)))%string.
    rewrite split_pass by exact Hx. cbn [Str.split_from].
    rewrite prefix_char, Ascii.eqb_refl. cbn [length Nat.sub].
    rewrite rev_append_twice. cbn [Str.rev_append]. rewrite append_empty_r.
    f_equal. apply IH; [discriminate|]. intros z Hz. apply H. now right.
Qed.

Lemma mem_concat (n c : ascii) (l : list string) :
  (n =? c)%char = false -> (forall x, In x l -> Str.mem n x = false) ->
  Str.mem n (String.concat (String c "") l) = false.
Proof.
  intros Nc. induction l as [|x l IH]; intros H; [reflexivity|].
  destruct l as [|y l].
  - apply H. now left.
  - change (String.concat (String c "") (x :: y :: l))
      with (x ++ String c (String.concat (String c "") (y :: l)))%string.
    rewrite mem_app. rewrite (H x) by now left. cbn [orb Str.mem].
    rewrite Nc. cbn [orb]. apply IH. intros z Hz. apply H. now right.
Qed.

Lemma split_each_line_joined (rows acc : list (list string)) :
  (forall row, In row rows ->
     row <> [] /\ row <> [""] /\ forall f, In f row -> plain_field f = true) ->
  fold_left (fun data_list line =>
               DataFromText._clean_line data_list (Str.split "," line))
            (map (String.concat ",") rows) acc = acc ++ rows.
Proof.
  revert acc; induction rows as [|row rows IH]; intros acc H; simpl.
  - now rewrite app_nil_r.
  - destruct (H row (or_introl eq_refl)) as (N & N' & F).
    rewrite split_join_char; [|exact N|].
    2:{ intros f Hf. specialize (F f Hf). unfold plain_field in F.
        apply andb_true_iff in F. destruct F as [F _].
        apply andb_true_iff in F. destruct F as [_ F].
        now apply negb_true_iff in F. }
    assert (M : map DataFromText._clean_value_in_line row = row).
    { clear -F. induction row as [|f row IHr]; [reflexivity|]. simpl. f_equal.
      - specialize (F f (or_introl eq_refl)). unfold plain_field in F.
        apply andb_true_iff in F. destruct F as [F _].
        apply andb_true_iff in F. destruct F as [F _].
        now apply String.eqb_eq in F.
      - apply IHr. intros g Hg. apply F. now right. }
    unfold DataFromText._clean_line. rewrite M.
    destruct (list_eq_dec string_dec row [""]) as [E|_]; [contradiction|].
    rewrite IH by (intros; apply H; now right).
    now rewrite <- app_assoc.
Qed.

(** X22.  A table given as text loads as the same table given as a list:
    for rows that are not empty and not the single empty field, with
    fields that are trimmed and hold no comma and no newline, joining the
    fields with commas and the rows with newlines and handing the text to
    [DataFromText] gives what [DataFromList] gives on the rows, the same
    table or the same exception. *)
Theorem text_table_as_list (rows : list (list string)) :
  (forall row, In row rows ->
     row <> [] /\ row <> [""] /\ forall f, In f row -> plain_field f = true) ->
  DataFromText.return_data_set (table_text rows) "," = load_table rows.
Proof.
  intros H. unfold DataFromText.return_data_set, load_table.
  replace (DataFromText._split_each_line "," (Str.split newline (table_text rows)))
    with rows; [reflexivity|].
  unfold DataFromText._split_each_line, table_text.
  destruct rows as [|row rows]; [reflexivity|].
  unfold newline. rewrite split_join_char.
  - now rewrite split_each_line_joined.
  - discriminate.
  - intros line Hl. apply in_map_iff in Hl. destruct Hl as (r & <- & Hr).
    apply mem_concat; [reflexivity|].
    intros f Hf. destruct (H r Hr) as (_ & _ & F). specialize (F f Hf).
    unfold plain_field in F. apply andb_true_iff in F. destruct F as [_ F].
    now apply negb_true_iff in F.
Qed.

(** X22 at a table of two records. *)
Lemma text_table_as_list_example :
  DataFromText.return_data_set
    (table_text [["id"; "name"]; ["1"; "Alice"]; ["2"; "Bob"]]) "," =
  load_table [["id"; "name"]; ["1"; "Alice"]; ["2"; "Bob"]].
Proof.
  apply (text_table_as_list [["id"; "name"]; ["1"; "Alice"]; ["2"; "Bob"]]).
  intros row [<-|[<-|[<-|[]]]];
    (split; [discriminate|split; [discriminate|]]);
    intros f Hf; simpl in Hf;
    repeat (destruct Hf as [<-|Hf]; [reflexivity|]); contradiction.
Defined.

(** ** Well-formed [print] and [input] lines *)

Lemma rstrip_app (a b : string) :
  Str.rstrip b <> "" -> Str.rstrip (a ++ b) = (a ++ Str.rstrip b)%string.
Proof.
  intros N. induction a as [|c a IH]; simpl; [reflexivity|].
  rewrite IH. destruct (a ++ Str.rstrip b)%string eqn:E.
  - destruct a; [simpl in E; contradiction|discriminate].
  - now rewrite andb_false_r.
Qed.

Lemma isspace_lower (c : ascii) : Str.isspace (Str.lower_char c) = Str.isspace c.
Proof. ascii_cases c; reflexivity. Qed.

Lemma lower_app (a b : string) :
  Str.lower (a ++ b) = (Str.lower a ++ Str.lower b)%string.
Proof. induction a as [|c a IH]; simpl; [reflexivity|now rewrite IH]. Qed.

Lemma stripped_head (t : string) :
  Str.strip t = t -> t <> "" ->
  exists c t', t = String c t' /\ Str.isspace c = false.
Proof.
  unfold Str.strip. intros E N.
  destruct (lstrip_head t) as [L|(c & t' & L & Hc)].
  - rewrite L in E. simpl in E. now symmetry in E.
  - rewrite L in E. simpl in E. rewrite Hc in E. simpl in E.
    exists c, (Str.rstrip t'). split; [now symmetry|exact Hc].
Qed.

Lemma rstrip_nonempty (c : ascii) (s : string) :
  Str.isspace c = false -> Str.rstrip (String c s) <> "".
Proof. intros H. simpl. rewrite H. discriminate. Qed.

Lemma noparen_unchanged (line : string) :
  Str.strip line = line ->
  Str.mem "(" line = false -> Str.mem ")" line = false ->
  BaseInterpreter._remove_parenthesis line = Ok line.
Proof.
  intros S Ho Hc. unfold BaseInterpreter._remove_parenthesis.
  rewrite S, Ho. cbn [bind]. now rewrite Hc.
Qed.

Lemma plain_action_facts (t : string) :
  plain_action t = true ->
  (exists c t', t = String c t' /\ Str.isspace c = false) /\
  Str.strip t = t /\
  Str.mem "," t = false /\ Str.mem "(" t = false /\ Str.mem ")" t = false /\
  BaseInterpreter._remove_quotes t = Ok t.
Proof.
  unfold plain_action. destruct t as [|c t']; [discriminate|].
  intros H. apply andb_true_iff in H. destruct H as [H M].
  apply andb_true_iff in H. destruct H as [Q S].
  apply String.eqb_eq in S. apply negb_true_iff in Q, M.
  apply orb_false_iff in M. destruct M as [M M3].
  apply orb_false_iff in M. destruct M as [M1 M2].
  split; [apply stripped_head; [exact S|discriminate]|].
  split; [exact S|]. split; [exact M1|]. split; [exact M2|]. split; [exact M3|].
  unfold BaseInterpreter._remove_quotes. rewrite S.
  cbn [Str.first bind]. now rewrite Q.
Qed.

Lemma mem_digits (c : ascii) (s : string) :
  Str.isdigit c = false -> Str.mem c (digits_of s) = false.
Proof.
  intros Hc. induction s as [|d s IH]; simpl; [reflexivity|].
  destruct (Str.isdigit d) eqn:E; [|exact IH]. simpl. rewrite IH.
  destruct (c =? d)%char eqn:X; [|reflexivity].
  apply Ascii.eqb_eq in X. subst d. congruence.
Qed.

Lemma all_digits_facts (d : string) :
  all_digits d = true -> digits_of d = d /\ has_digit d = true.
Proof.
  unfold all_digits, has_digit. intros H. apply andb_true_iff in H.
  destruct H as [E N]. apply String.eqb_eq in E. split; [exact E|]. now rewrite E.
Qed.

Lemma new_command_plain (nl : instruction) (t : string) :
  plain_action t = true ->
  BaseInterpreter._new_command nl t false = Ok (nl ++ [PStr t]).
Proof.
  intros P. destruct (plain_action_facts t P) as (_ & S & M1 & M2 & M3 & Q).
  rewrite new_command_unfold.
  unfold action_part, attribute_part, command_contents.
  rewrite (noparen_unchanged t S M2 M3).
  assert (X : Str.split "," t = [t]).
  { apply (split_join_char "," [t]); [discriminate|].
    intros x [<-|[]]. exact M1. }
  rewrite X. cbn [hd nth_error]. rewrite Q. reflexivity.
Qed.

Lemma plain_width_stripped (t d : string) :
  plain_action t = true -> all_digits d = true ->
  Str.strip (t ++ ", " ++ d) = (t ++ ", " ++ d)%string.
Proof.
  intros P D. destruct (plain_action_facts t P) as (Hd & S & _).
  destruct (all_digits_facts d D) as [Ed Nd].
  destruct Hd as (c & t' & Et & Hc).
  assert (Rd : Str.rstrip d = d) by (rewrite <- Ed; apply rstrip_digits).
  assert (Nonempty : d <> "").
  { intros X. subst d. discriminate Nd. }
  unfold Str.strip. rewrite Et at 1. cbn [append Str.lstrip]. rewrite Hc.
  change (String c (t' ++ String "," (String " " d)))
    with (String c t' ++ ", " ++ d)%string.
  rewrite <- Et.
  change (t ++ ", " ++ d)%string with (t ++ (", " ++ d))%string.
  rewrite (rstrip_app t (", " ++ d)).
  - f_equal. rewrite (rstrip_app ", " d); [now rewrite Rd|now rewrite Rd].
  - rewrite (rstrip_app ", " d); [discriminate|now rewrite Rd].
Qed.

Lemma new_command_plain_width (nl : instruction) (t d : string) :
  plain_action t = true -> all_digits d = true ->
  BaseInterpreter._new_command nl (t ++ ", " ++ d) false =
  Ok (nl ++ [PStr t; PInt (value_from 0 d)]).
Proof.
  intros P D. destruct (plain_action_facts t P) as (Hd & S & M1 & M2 & M3 & Q).
  destruct (all_digits_facts d D) as [Ed Nd].
  destruct Hd as (c & t' & Et & Hc).
  assert (Rd : Str.rstrip d = d) by (rewrite <- Ed; apply rstrip_digits).
  assert (Nonempty : d <> "").
  { intros X. subst d. discriminate Nd. }
  pose proof (plain_width_stripped t d P D) as Sb.
  assert (Md : forall x, Str.isdigit x = false -> Str.mem x d = false).
  { intros x Hx. rewrite <- Ed. now apply mem_digits. }
  rewrite new_command_unfold.
  unfold action_part, attribute_part, command_contents.
  rewrite noparen_unchanged; [|exact Sb| |].
  2:{ rewrite mem_app, M2. simpl. now apply Md. }
  2:{ rewrite mem_app, M3. simpl. now apply Md. }
  change (t ++ ", " ++ d)%string with (String.concat "," [t; (" " ++ d)%string]).
  rewrite (split_join_char "," [t; (" " ++ d)%string]); [|discriminate|].
  2:{ intros x [<-|[<-|[]]]; [exact M1|]. simpl. now apply Md. }
  cbn [hd nth_error]. rewrite Q. cbn [bind]. cbv zeta.
  rewrite clean_number_unfold. cbv zeta. unfold accumulation.
  change (" " ++ d)%string with (String " " d).
  assert (Pn : has_point (String " " d) = false).
  { rewrite has_point_cons. simpl. rewrite <- Ed. apply has_point_digits. }
  rewrite Pn. change (digits_of (String " " d)) with (digits_of d).
  replace (digits_of d =? "") with false
    by (symmetry; unfold has_digit in Nd; now apply negb_true_iff in Nd).
  rewrite (int_of_str_digits d Nd). cbn [bind]. unfold int_value. rewrite Ed.
  now rewrite <- app_assoc.
Qed.

Lemma classify_print (body : string) (c : ascii) (b : string) :
  body = String c b -> Str.isspace c = false ->
  InterpreterFactory.__call__ ("print " ++ body) =
  Ok (PrintInterpreter ("print " ++ body)).
Proof.
  intros E Hc.
  assert (N : Str.rstrip (Str.lower body) <> "").
  { rewrite E. simpl. rewrite isspace_lower, Hc. discriminate. }
  assert (L : Str.strip (Str.lower ("print " ++ body)) =
              ("print " ++ Str.rstrip (Str.lower body))%string).
  { rewrite lower_app. change (Str.lower "print ") with "print ".
    unfold Str.strip. change (Str.lstrip ("print " ++ Str.lower body))
      with ("print " ++ Str.lower body)%string.
    now apply rstrip_app. }
  unfold InterpreterFactory.__call__, InterpreterFactory._set_line_characteristics.
  rewrite L. reflexivity.
Qed.

Lemma classify_input (body : string) (c : ascii) (b : string) :
  body = String c b -> Str.isspace c = false ->
  InterpreterFactory.__call__ ("input " ++ body) =
  Ok (InputInterpreter ("input " ++ body)).
Proof.
  intros E Hc.
  assert (N : Str.rstrip (Str.lower body) <> "").
  { rewrite E. simpl. rewrite isspace_lower, Hc. discriminate. }
  assert (L : Str.strip (Str.lower ("input " ++ body)) =
              ("input " ++ Str.rstrip (Str.lower body))%string).
  { rewrite lower_app. change (Str.lower "input ") with "input ".
    unfold Str.strip. change (Str.lstrip ("input " ++ Str.lower body))
      with ("input " ++ Str.lower body)%string.
    now apply rstrip_app. }
  unfold InterpreterFactory.__call__, InterpreterFactory._set_line_characteristics.
  rewrite L. reflexivity.
Qed.

Lemma strip_after_keyword (body : string) :
  Str.strip body = body -> Str.strip (" " ++ body) = body.
Proof. intros S. unfold Str.strip in *. exact S. Qed.

(** X23.  A [print] or [input] line written as the grammar shows parses
    back to what was written: for an action that is not empty, is trimmed,
    holds no comma and no parenthesis and does not start with a quote, the
    line [print <action>] gives the instruction with that action, and the
    line [print <action>, <digits>] gives it with the number the digits
    write as its width; the same holds for [input]. *)
Theorem plain_lines_round_trip (t : string) :
  plain_action t = true ->
  parse_line ("print " ++ t) = Ok (Some [PStr "print"; PStr t]) /\
  parse_line ("input " ++ t) = Ok (Some [PStr "input"; PStr t]) /\
  forall d,
    all_digits d = true ->
    parse_line ("print " ++ t ++ ", " ++ d) =
    Ok (Some [PStr "print"; PStr t; PInt (value_from 0 d)]) /\
    parse_line ("input " ++ t ++ ", " ++ d) =
    Ok (Some [PStr "input"; PStr t; PInt (value_from 0 d)]).
Proof.
  intros P. destruct (plain_action_facts t P) as (Hd & S & _).
  destruct Hd as (c & t' & Et & Hc). unfold parse_line.
  split; [|split].
  - rewrite (classify_print t c t' Et Hc). cbn [bind interpret].
    unfold PrintInterpreter.interpret.
    change (Str.drop 5 ("print " ++ t)) with (" " ++ t)%string.
    rewrite (strip_after_keyword t S), (new_command_plain _ t P). reflexivity.
  - rewrite (classify_input t c t' Et Hc). cbn [bind interpret].
    unfold InputInterpreter.interpret.
    change (Str.drop 5 ("input " ++ t)) with (" " ++ t)%string.
    rewrite (strip_after_keyword t S), (new_command_plain _ t P). reflexivity.
  - intros d D. pose proof (plain_width_stripped t d P D) as Sb.
    assert (Eb : (t ++ ", " ++ d)%string = String c (t' ++ ", " ++ d)).
    { rewrite Et at 1. reflexivity. }
    split.
    + rewrite (classify_print (t ++ ", " ++ d) c (t' ++ ", " ++ d) Eb Hc).
      cbn [bind interpret]. unfold PrintInterpreter.interpret.
      change (Str.drop 5 ("print " ++ t ++ ", " ++ d))
        with (" " ++ (t ++ ", " ++ d))%string.
      rewrite (strip_after_keyword _ Sb), (new_command_plain_width _ t d P D).
      reflexivity.
    + rewrite (classify_input (t ++ ", " ++ d) c (t' ++ ", " ++ d) Eb Hc).
      cbn [bind interpret]. unfold InputInterpreter.interpret.
      change (Str.drop 5 ("input " ++ t ++ ", " ++ d))
        with (" " ++ (t ++ ", " ++ d))%string.
      rewrite (strip_after_keyword _ Sb), (new_command_plain_width _ t d P D).
      reflexivity.
Qed.

(** X23 at the action [hello world] and the width [10]. *)
Lemma plain_lines_round_trip_example :
  parse_line "print hello world" = Ok (Some [PStr "print"; PStr "hello world"]) /\
  parse_line "input hello world, 10" =
  Ok (Some [PStr "input"; PStr "hello world"; PInt 10]).
Proof.
  destruct (plain_lines_round_trip "hello world" eq_refl) as (A & _ & B).
  split; [exact A|]. exact (proj2 (B "10" eq_refl)).
Defined.

(** ** A procedure with no keyword line *)

Lemma parse_short_or_unknown (line : string) :
  length (Str.strip (Str.lower line)) <= 5 \/
  is_keyword (Str.take 5 (Str.strip (Str.lower line))) = false ->
  parse_line line = Ok None.
Proof.
  unfold parse_line, InterpreterFactory.__call__,
    InterpreterFactory._set_line_characteristics, is_keyword.
  set (l := Str.strip (Str.lower line)). intros H.
  destruct (5 <? length l)%nat eqn:L.
  - apply Nat.ltb_lt in L. destruct H as [H|H]; [lia|].
    destruct (first_of_long l) as [c Hc]; [lia|]. rewrite Hc. cbn [bind fst snd].
    apply orb_false_iff in H. destruct H as [H E4].
    apply orb_false_iff in H. destruct H as [H E3].
    apply orb_false_iff in H. destruct H as [E1 E2].
    rewrite E1, E2, E3, E4. now destruct (String c "" =? "#").
  - reflexivity.
Qed.

Lemma mapM_all_none (lines : list string) :
  (forall line, In line lines -> parse_line line = Ok None) ->
  mapM parse_line lines = Ok (map (fun _ => None) lines).
Proof.
  induction lines as [|line lines IH]; intros H; simpl; [reflexivity|].
  rewrite (H line) by now left. simpl.
  rewrite IH by (intros; apply H; now right). reflexivity.
Qed.

Lemma live_of_none {A : Type} (l : list A) :
  live_instructions (map (fun _ => None) l) = [].
Proof. induction l as [|a l IH]; simpl; [reflexivity|exact IH]. Qed.

Lemma mapM_of_nothing {A B : Type} (l : list A) :
  mapM (fun _ : A => @Ok (list B) []) l = Ok (map (fun _ => []) l).
Proof. induction l as [|a l IH]; simpl; [reflexivity|]. now rewrite IH. Qed.

Lemma concat_of_nothing {A B : Type} (l : list A) :
  List.concat (map (fun _ : A => @nil B) l) = [].
Proof. induction l as [|a l IH]; simpl; [reflexivity|exact IH]. Qed.

(** X24.  A procedure text in which no line is a keyword line (comments,
    blank lines, anything unrecognised) does nothing, whatever the table:
    the run issues no keystroke.  It raises only if the table itself fails
    to load. *)
Theorem inert_procedure (text : string) (table : data_table) :
  (forall line,
     In line (Str.split newline text) ->
     length (Str.strip (Str.lower line)) <= 5 \/
     is_keyword (Str.take 5 (Str.strip (Str.lower line))) = false) ->
  Pynputter.run (ProcedureText text) table =
  match DataConverterFactory.return_data_set table with
  | Ok _ => Outcome [] None
  | Raise e => Outcome [] (Some e)
  end.
Proof.
  intros H. unfold Pynputter.run, Pynputter.__init__,
    ProcedureFromText.return_procedure.
  change (mapM (fun line => i <- InterpreterFactory.__call__ line ;; interpret i)
               (Str.split newline text))
    with (mapM parse_line (Str.split newline text)).
  rewrite mapM_all_none
    by (intros line Hl; apply parse_short_or_unknown; now apply H).
  cbn [bind].
  destruct (DataConverterFactory.return_data_set table) as [data|e];
    cbn [bind]; [|reflexivity].
  unfold Pynputter.__call__. cbn [fst snd].
  rewrite build_procedure_set_unfold, live_of_none.
  destruct data as [d|]; cbn [mapM]; [|reflexivity].
  change (fun k : string => mapM (resolve_with (Some d) CommandFactory.__call__ (Some k)) [])
    with (fun _ : string => @Ok (list Command) []).
  rewrite mapM_of_nothing. cbn [bind]. now rewrite concat_of_nothing.
Qed.

(** X24 at a text of a comment, a blank line and an unknown word, run on
    a table of one record. *)
Lemma inert_procedure_example :
  Pynputter.run (ProcedureText ("# setup" ++ newline ++ newline ++ "fizzle 123"))
                (TableList [["id"; "name"]; ["1"; "Alice"]]) =
  Outcome [] None.
Proof.
  apply (inert_procedure ("# setup" ++ newline ++ newline ++ "fizzle 123")
                         (TableList [["id"; "name"]; ["1"; "Alice"]])).
  intros line [<-|[<-|[<-|[]]]]; [right|left|right]; (reflexivity || (simpl; lia)).
Defined.
